(** * bybitHistoryViewer: FIFO matching engines of [app.py]

    A shallow embedding of [analyze_spot_trades], [analyze_contract_trades],
    [load_and_process_files] and [analyze_uploaded_files], and the properties
    of the matching, allocation, aggregation and classification they perform.

    Modelling conventions.
    - A DataFrame is the list of its rows, in row order.  A row is a record
      with one field per column that the engines read; each row carries its
      index label ([pd.concat(..., ignore_index=True)] numbers the rows).
      Every field holds a value: the frame has the columns that the engine
      reads, the timestamps parse, and no row lacks its contract (pandas
      raises, or drops the row, otherwise).
    - [Decimal] values are exact rationals ([Q], compared with [==]).  The
      28-digit rounding of the decimal context and the conversions through
      binary floats ([pd.to_numeric], [float(...)]) are outside the model;
      every concrete input used below is exact in Python as well.
    - Timestamps are whole seconds ([Z]), as the exports have them.
    - [sort_values] is modelled by a stable insertion sort.
    - The [while] loops run on fuel; [close_loop_fuel] and [sell_loop_fuel]
      show that the fuel handed to them is always enough. *)

From Stdlib Require Import ZArith QArith Qminmax Qabs List String Bool Lia Lqa.
From Stdlib Require Import Permutation Sorted DecimalString.
From Stdlib Require Import Qround.
Import ListNotations.

Open Scope Q_scope.

(** ** Decimal helpers *)

Definition Qlt_bool (x y : Q) : bool := negb (Qle_bool y x).

(** [Decimal('1e-9')] *)
Definition epsilon : Q := 1 # 1000000000.

(** [Series.sum()] *)
Definition Qsum (l : list Q) : Q := fold_right Qplus 0 l.

(** ** Rows and frames *)

Record Row := mkRow {
  index_label : nat;      (* the DataFrame index of the row *)
  Time : Z;               (* 'Time(UTC)' *)
  Coin : string;
  Contract : string;
  Type_ : string;         (* 'Type' *)
  Direction : string;
  Action : string;
  Amount : Q;
  Quantity : Q;
  Fee_Paid : Q;           (* 'Fee Paid' *)
  Cash_Flow : Q;          (* 'Cash Flow' *)
  Funding : Q;
  Change : Q
}.

Definition DataFrame := list Row.

Definition set_Quantity (r : Row) (q : Q) : Row :=
  mkRow (index_label r) (Time r) (Coin r) (Contract r) (Type_ r) (Direction r)
        (Action r)
        (Amount r) q (Fee_Paid r) (Cash_Flow r) (Funding r) (Change r).

Definition set_Funding (r : Row) (q : Q) : Row :=
  mkRow (index_label r) (Time r) (Coin r) (Contract r) (Type_ r) (Direction r)
        (Action r)
        (Amount r) (Quantity r) (Fee_Paid r) (Cash_Flow r) q (Change r).

Definition set_Amount (r : Row) (q : Q) : Row :=
  mkRow (index_label r) (Time r) (Coin r) (Contract r) (Type_ r) (Direction r)
        (Action r)
        q (Quantity r) (Fee_Paid r) (Cash_Flow r) (Funding r) (Change r).

(** ** Sorting and grouping *)

Section StableSort.
Context {A : Type} (key : A -> Z).

Fixpoint insert_by (x : A) (l : list A) : list A :=
  match l with
  | [] => [x]
  | y :: l' => if (key x <=? key y)%Z then x :: l else y :: insert_by x l'
  end.

(** [sort_values(by=key)]: ascending, rows with equal keys keep their order. *)
Definition sort_by (l : list A) : list A := fold_right insert_by [] l.
End StableSort.

Definition sort_values : DataFrame -> DataFrame := sort_by Time.

Fixpoint insert_key (x : Z) (l : list Z) : list Z :=
  match l with
  | [] => [x]
  | y :: l' =>
      if (x <? y)%Z then x :: l
      else if (x =? y)%Z then l
      else y :: insert_key x l'
  end.

(** The distinct keys of a [groupby] on a timestamp column, ascending. *)
Definition group_keys (l : list Z) : list Z := fold_right insert_key [] l.

Fixpoint insert_name (x : string) (l : list string) : list string :=
  match l with
  | [] => [x]
  | y :: rest =>
      if String.ltb x y then x :: l
      else if String.eqb x y then l
      else y :: insert_name x rest
  end.

(** The distinct keys of a [groupby] on a string column, in sorted order. *)
Definition group_names (l : list string) : list string :=
  fold_right insert_name [] l.

(** ** The contract engine: [analyze_contract_trades] *)

(** The values of [row], [qty_to_close] and [open_pos] on entry to the body
    of the [while] loop (lines 231-275); every other local of the body is a
    function of them. *)
Record Iter := mkIter {
  it_row : Row;
  it_qty_to_close : Q;
  it_open_pos : Row
}.

(** The dict appended to [classified_trades]. *)
Record Fill := mkFill {
  f_contract : string;
  f_pnl : Q;
  f_holding_period_seconds : Q;
  f_open_time : Z;
  f_close_time : Z;
  f_funding_fee : Q;
  f_trade_fees : Q;
  f_quantity : Q
}.

Definition matched_qty (it : Iter) : Q :=
  Qmin (it_qty_to_close it) (Quantity (it_open_pos it)).

Definition pnl_ratio (it : Iter) : Q :=
  if Qlt_bool 0 (Quantity (it_row it))
  then matched_qty it / Quantity (it_row it) else 0.

Definition close_pnl_part (it : Iter) : Q := Cash_Flow (it_row it) * pnl_ratio it.
Definition close_fee_part (it : Iter) : Q := Fee_Paid (it_row it) * pnl_ratio it.

Definition open_fee_ratio (it : Iter) : Q :=
  if Qlt_bool 0 (Quantity (it_open_pos it))
  then matched_qty it / Quantity (it_open_pos it) else 0.

Definition open_fee_part (it : Iter) : Q :=
  Fee_Paid (it_open_pos it) * open_fee_ratio it.

Definition relevant_funding_df (funding_df : DataFrame) (contract : string)
    (it : Iter) : DataFrame :=
  filter (fun r => String.eqb (Contract r) contract
                   && (Time (it_open_pos it) <? Time r)%Z
                   && (Time r <=? Time (it_row it))%Z) funding_df.

Definition funding_sum (funding_df : DataFrame) (contract : string)
    (it : Iter) : Q :=
  Qsum (map Funding (relevant_funding_df funding_df contract it)).

Definition total_open_qty_in_period (group : DataFrame) (it : Iter) : Q :=
  Qsum (map Quantity
         (filter (fun r => String.eqb (Action r) "OPEN"
                           && (Time (it_open_pos it) <=? Time r)%Z
                           && (Time r <=? Time (it_row it))%Z) group)).

Definition funding_part (funding_df : DataFrame) (contract : string)
    (group : DataFrame) (it : Iter) : Q :=
  if Qlt_bool 0 (total_open_qty_in_period group it)
  then funding_sum funding_df contract it
       * (matched_qty it / total_open_qty_in_period group it)
  else 0.

Definition net_pnl funding_df contract group (it : Iter) : Q :=
  close_pnl_part it + open_fee_part it + close_fee_part it
  + funding_part funding_df contract group it.

Definition trade_fees (it : Iter) : Q := open_fee_part it + close_fee_part it.

Definition holding_period (it : Iter) : Z :=
  (Time (it_row it) - Time (it_open_pos it))%Z.

Definition classified_trade (funding_df : DataFrame) (contract : string)
    (group : DataFrame) (it : Iter) : Fill :=
  {| f_contract := contract;
     f_pnl := net_pnl funding_df contract group it;
     f_holding_period_seconds := inject_Z (holding_period it);
     f_open_time := Time (it_open_pos it);
     f_close_time := Time (it_row it);
     f_funding_fee := funding_part funding_df contract group it;
     f_trade_fees := trade_fees it;
     f_quantity := matched_qty it |}.

(** Lines 271-275: the head lot after the decrement, popped at epsilon. *)
Definition decrement_head (it : Iter) (rest : list Row) : list Row :=
  let open_pos := set_Quantity (it_open_pos it)
                    (Quantity (it_open_pos it) - matched_qty it) in
  if Qle_bool (Quantity open_pos) epsilon then rest else open_pos :: rest.

(** [while qty_to_close > 0 and open_positions: ...].  [None]: out of fuel. *)
Fixpoint close_loop (fuel : nat) (row : Row) (qty_to_close : Q)
    (open_positions : list Row) : option (list Iter * list Row) :=
  match fuel with
  | O => None
  | S fuel' =>
      match open_positions with
      | [] => Some ([], [])
      | open_pos :: rest =>
          if Qlt_bool 0 qty_to_close then
            let it := mkIter row qty_to_close open_pos in
            match close_loop fuel' row (qty_to_close - matched_qty it)
                    (decrement_head it rest) with
            | Some (its, q) => Some (it :: its, q)
            | None => None
            end
          else Some ([], open_positions)
      end
  end.

(** The loop of one CLOSE row, started with [qty_to_close = row['Quantity']]. *)
Definition match_close (row : Row) (open_positions : list Row)
    : list Iter * list Row :=
  match close_loop (List.length open_positions + 2) row (Quantity row)
          open_positions with
  | Some r => r
  | None => ([], open_positions)
  end.

(** [for _, row in group.iterrows(): ...] (lines 224-275). *)
Fixpoint group_loop (rows : list Row) (open_positions : list Row)
    : list Iter :=
  match rows with
  | [] => []
  | row :: rows' =>
      if String.eqb (Action row) "OPEN" then
        group_loop rows' (open_positions ++ [row])
      else if String.eqb (Action row) "CLOSE" then
        let (its, open_positions') := match_close row open_positions in
        its ++ group_loop rows' open_positions'
      else group_loop rows' open_positions
  end.

(** [funding_df]: the SETTLEMENT rows, with [Funding] overwritten by [Change]. *)
Definition funding_rows (df : DataFrame) : DataFrame :=
  map (fun r => set_Funding r (Change r))
      (filter (fun r => String.eqb (Type_ r) "SETTLEMENT") df).

Definition trade_actions_rows (df : DataFrame) : DataFrame :=
  filter (fun r => (String.eqb (Action r) "OPEN" || String.eqb (Action r) "CLOSE")
                   && String.eqb (Type_ r) "TRADE") df.

(** [group] of one contract, re-sorted by time (line 222). *)
Definition contract_group (trade_actions_df : DataFrame) (contract : string)
    : DataFrame :=
  sort_values (filter (fun r => String.eqb (Contract r) contract) trade_actions_df).

Definition contract_fills (funding_df trade_actions_df : DataFrame)
    (contract : string) : list Fill :=
  let group := contract_group trade_actions_df contract in
  map (classified_trade funding_df contract group) (group_loop group []).

(** [classified_trades] when the outer loop ends (line 277). *)
Definition classified_trades (df : DataFrame) : list Fill :=
  let df := sort_values df in
  let funding_df := funding_rows df in
  let trade_actions_df := trade_actions_rows df in
  flat_map (contract_fills funding_df trade_actions_df)
           (group_names (map Contract trade_actions_df)).

(** ** Aggregation and classification (lines 280-354) *)

(** One record of [agg_trades]: the fills of one [close_time] group. *)
Record Agg := mkAgg {
  a_close_time : Z;
  a_pnl : Q;
  a_trade_fees : Q;
  a_funding_fee : Q;
  a_quantity : Q;
  a_open_time : Z;
  a_contract : string;
  a_holding_period_seconds : Q
}.

(** [weighted_avg(df, 'holding_period_seconds', 'quantity')] *)
Definition weighted_avg (g : list Fill) : Q :=
  if Qeq_bool (Qsum (map f_quantity g)) 0 then 0
  else Qsum (map (fun f => f_holding_period_seconds f * f_quantity f) g)
       / Qsum (map f_quantity g).

(** ['open_time': 'min'] *)
Definition min_open_time (g : list Fill) : Z :=
  match g with
  | [] => 0%Z
  | f :: g' => fold_left Z.min (map f_open_time g') (f_open_time f)
  end.

(** ['contract': 'first'] *)
Definition first_contract (g : list Fill) : string :=
  match g with
  | [] => EmptyString
  | f :: _ => f_contract f
  end.

(** The rows of [trades_df] that [groupby('close_time')] puts under key [k]. *)
Definition close_group (fills : list Fill) (k : Z) : list Fill :=
  filter (fun f => (f_close_time f =? k)%Z) fills.

Definition agg_group (fills : list Fill) (k : Z) : Agg :=
  let g := close_group fills k in
  {| a_close_time := k;
     a_pnl := Qsum (map f_pnl g);
     a_trade_fees := Qsum (map f_trade_fees g);
     a_funding_fee := Qsum (map f_funding_fee g);
     a_quantity := Qsum (map f_quantity g);
     a_open_time := min_open_time g;
     a_contract := first_contract g;
     a_holding_period_seconds := weighted_avg g |}.

(** [grouped_trades], sorted by [close_time] (lines 299-305). *)
Definition grouped_trades (fills : list Fill) : list Agg :=
  sort_by a_close_time
    (map (agg_group fills) (group_keys (map f_close_time fills))).

(** '스윙' and '단타' *)
Inductive TradeType := SWING | DAY_TRADE.

Record Trade := mkTrade {
  t_id : nat;                    (* "T-<n>" *)
  t_agg : Agg;
  t_cumulative_pnl : Q;
  t_cumulative_fees : Q;
  t_type : TradeType
}.

Definition threshold_seconds (threshold_hours : Z) : Z :=
  (threshold_hours * 3600)%Z.

Definition classify (threshold_hours : Z) (holding_period_seconds : Q)
    : TradeType :=
  if Qlt_bool (inject_Z (threshold_seconds threshold_hours))
              holding_period_seconds
  then SWING else DAY_TRADE.

(** [for i, trade in enumerate(grouped_trades): ...] (lines 309-315). *)
Fixpoint number_trades (threshold_hours : Z) (i : nat)
    (cumulative_pnl cumulative_fees : Q) (l : list Agg) : list Trade :=
  match l with
  | [] => []
  | a :: l' =>
      let cumulative_pnl := cumulative_pnl + a_pnl a in
      let cumulative_fees := cumulative_fees + a_trade_fees a in
      mkTrade (i + 1) a cumulative_pnl cumulative_fees
              (classify threshold_hours (a_holding_period_seconds a))
      :: number_trades threshold_hours (S i) cumulative_pnl cumulative_fees l'
  end.

Definition is_type (ty : TradeType) (t : Trade) : bool :=
  match ty, t_type t with
  | SWING, SWING | DAY_TRADE, DAY_TRADE => true
  | _, _ => false
  end.

Record ContractKpi := mkContractKpi {
  k_totalPnl : Q;
  k_tradeCount : nat;
  k_dayTradePnl : Q;
  k_swingTradePnl : Q
}.

(** The success payload; chart labels are kept as timestamps, the numbers
    as decimals (the [strftime] and [float] formatting is not modelled). *)
Record ContractResult := mkContractResult {
  c_kpi : ContractKpi;
  c_chart_labels : list Z;
  c_chart_data : list Q;
  c_trades : list Trade
}.

Inductive ErrorMessage :=
| NoRealizedPnl          (* "No realized PnL from spot trades could be calculated." *)
| NoValidContractData    (* "No valid contract trade data found in uploaded files." *)
| NoClassifiableTrades.  (* "No trades could be classified from the uploaded files." *)

Inductive Result (A : Type) :=
| error (e : ErrorMessage)
| success (a : A).
Arguments error {A} e.
Arguments success {A} a.

Definition min_time (df : DataFrame) : Z :=
  match df with
  | [] => 0%Z
  | r :: df' => fold_left Z.min (map Time df') (Time r)
  end.

Definition analyze_contract_trades (df : DataFrame) (threshold_hours : Z)
    : Result ContractResult :=
  match df with
  | [] => error NoValidContractData
  | _ :: _ =>
      match classified_trades df with
      | [] => error NoClassifiableTrades
      | fills =>
          let trades :=
            number_trades threshold_hours 0 0 0 (grouped_trades fills) in
          success
            {| c_kpi :=
                 {| k_totalPnl := Qsum (map (fun t => a_pnl (t_agg t)) trades);
                    k_tradeCount := List.length trades;
                    k_dayTradePnl :=
                      Qsum (map (fun t => a_pnl (t_agg t))
                                (filter (is_type DAY_TRADE) trades));
                    k_swingTradePnl :=
                      Qsum (map (fun t => a_pnl (t_agg t))
                                (filter (is_type SWING) trades)) |};
               c_chart_labels :=
                 min_time (sort_values df)
                 :: map (fun t => a_close_time (t_agg t)) trades;
               c_chart_data := 0 :: map t_cumulative_pnl trades;
               c_trades := trades |}
      end
  end.

(** ** The spot engine: [analyze_spot_trades] *)

(** A dict of [inventory[coin]]; [l_label] is the index label of the row
    that pushed it. *)
Record SpotLot := mkSpotLot {
  l_label : nat;
  l_qty : Q;
  l_price : Q;
  l_time : Z
}.

Definition set_qty (l : SpotLot) (q : Q) : SpotLot :=
  mkSpotLot (l_label l) q (l_price l) (l_time l).

(** [inventory]: coin to deque, in insertion order. *)
Definition Inventory := list (string * list SpotLot).

Fixpoint inv_mem (coin : string) (inv : Inventory) : bool :=
  match inv with
  | [] => false
  | (c, _) :: inv' => String.eqb c coin || inv_mem coin inv'
  end.

Fixpoint inv_get (inv : Inventory) (coin : string) : list SpotLot :=
  match inv with
  | [] => []
  | (c, q) :: inv' => if String.eqb c coin then q else inv_get inv' coin
  end.

Fixpoint inv_set (inv : Inventory) (coin : string) (q : list SpotLot)
    : Inventory :=
  match inv with
  | [] => [(coin, q)]
  | (c, q') :: inv' =>
      if String.eqb c coin then (c, q) :: inv'
      else (c, q') :: inv_set inv' coin q
  end.

(** The values of [row], [sell_price], [qty_to_sell] and [buy_lot] on entry
    to the body of the [while] loop (lines 123-142). *)
Record SellIter := mkSellIter {
  si_row : Row;
  si_sell_price : Q;
  si_qty_to_sell : Q;
  si_buy_lot : SpotLot
}.

(** The dict appended to [realized_pnl]. *)
Record Realized := mkRealized {
  r_coin : string;
  r_pnl : Q;
  r_quantity : Q;
  r_buy_price : Q;
  r_sell_price : Q;
  r_buy_time : Z;
  r_sell_time : Z
}.

Definition sell_matched_qty (it : SellIter) : Q :=
  Qmin (si_qty_to_sell it) (l_qty (si_buy_lot it)).

Definition realized (it : SellIter) : Realized :=
  {| r_coin := Coin (si_row it);
     r_pnl := (si_sell_price it - l_price (si_buy_lot it)) * sell_matched_qty it;
     r_quantity := sell_matched_qty it;
     r_buy_price := l_price (si_buy_lot it);
     r_sell_price := si_sell_price it;
     r_buy_time := l_time (si_buy_lot it);
     r_sell_time := Time (si_row it) |}.

(** Lines 138-142: the head lot after the decrement, popped at epsilon. *)
Definition decrement_lot (it : SellIter) (rest : list SpotLot)
    : list SpotLot :=
  let buy_lot := set_qty (si_buy_lot it)
                   (l_qty (si_buy_lot it) - sell_matched_qty it) in
  if Qle_bool (l_qty buy_lot) epsilon then rest else buy_lot :: rest.

(** [while qty_to_sell > 0 and inventory[coin]: ...].  [None]: out of fuel. *)
Fixpoint sell_loop (fuel : nat) (row : Row) (sell_price qty_to_sell : Q)
    (lots : list SpotLot) : option (list SellIter * list SpotLot) :=
  match fuel with
  | O => None
  | S fuel' =>
      match lots with
      | [] => Some ([], [])
      | buy_lot :: rest =>
          if Qlt_bool 0 qty_to_sell then
            let it := mkSellIter row sell_price qty_to_sell buy_lot in
            match sell_loop fuel' row sell_price
                    (qty_to_sell - sell_matched_qty it)
                    (decrement_lot it rest) with
            | Some (its, q) => Some (it :: its, q)
            | None => None
            end
          else Some ([], lots)
      end
  end.

Definition match_sell (row : Row) (sell_price : Q) (lots : list SpotLot)
    : list SellIter * list SpotLot :=
  match sell_loop (List.length lots + 2) row sell_price (Amount row) lots with
  | Some r => r
  | None => ([], lots)
  end.

(** [trades_df[(Time == time) & (Coin == 'USDT')]] *)
Definition usdt_trade (trades_df : DataFrame) (time : Z) : DataFrame :=
  filter (fun r => (Time r =? time)%Z && String.eqb (Coin r) "USDT") trades_df.

(** [is_buy = row['Amount'] > 0], read from the row of [all_trades]. *)
Definition is_buy (row : Row) : bool := Qlt_bool 0 (Amount row).

(** The body of [for _, row in all_trades.iterrows()] (lines 98-142); the
    state is [inventory] and the iterations that appended to [realized_pnl]. *)
Definition spot_step (trades_df : DataFrame)
    (st : Inventory * list SellIter) (row : Row)
    : Inventory * list SellIter :=
  let (inventory, its) := st in
  let coin := Coin row in
  let time := Time row in
  let amount := Amount row in
  let inventory :=
    if inv_mem coin inventory then inventory else inv_set inventory coin [] in
  if is_buy row then
    match usdt_trade trades_df time with
    | [] => (inventory, its)
    | usdt :: _ =>
        let usdt_amount := Qabs (Amount usdt) in
        let price := usdt_amount / amount in
        (inv_set inventory coin
           (inv_get inventory coin
            ++ [mkSpotLot (index_label row) amount price time]), its)
    end
  else
    match usdt_trade trades_df time with
    | [] => (inventory, its)
    | usdt :: _ =>
        let sell_price_usdt := Amount usdt in
        let sell_price := sell_price_usdt / amount in
        let (new_its, lots) :=
          match_sell row sell_price (inv_get inventory coin) in
        (inv_set inventory coin lots, its ++ new_its)
    end.

Definition spot_trades_df (df : DataFrame) : DataFrame :=
  filter (fun r => String.eqb (Type_ r) "trade") (sort_values df).

Definition spot_fees_df (df : DataFrame) : DataFrame :=
  filter (fun r => String.eqb (Type_ r) "tradingFee") (sort_values df).

Definition buys (trades_df : DataFrame) : DataFrame :=
  filter (fun r => Qlt_bool 0 (Amount r)) trades_df.

(** [sells], after [sells['Amount'] = sells['Amount'].abs()]. *)
Definition sells (trades_df : DataFrame) : DataFrame :=
  map (fun r => set_Amount r (Qabs (Amount r)))
      (filter (fun r => Qlt_bool (Amount r) 0) trades_df).

Definition all_trades (trades_df : DataFrame) : DataFrame :=
  sort_values (buys trades_df ++ sells trades_df).

(** [inventory] and the appending iterations when the loop ends. *)
Definition spot_run (df : DataFrame) : Inventory * list SellIter :=
  let trades_df := spot_trades_df df in
  fold_left (spot_step trades_df) (all_trades trades_df) ([], []).

Definition realized_pnl (df : DataFrame) : list Realized :=
  map realized (snd (spot_run df)).

(** [fees_df.groupby('Coin')['Amount'].sum().abs()], summed over the coins. *)
Definition total_fees_paid (fees_df : DataFrame) : Q :=
  Qsum (map (fun coin =>
               Qabs (Qsum (map Amount
                      (filter (fun r => String.eqb (Coin r) coin) fees_df))))
            (group_names (map Coin fees_df))).

Fixpoint cumsum (acc : Q) (l : list Q) : list Q :=
  match l with
  | [] => []
  | x :: l' => (acc + x) :: cumsum (acc + x) l'
  end.

Record SpotKpi := mkSpotKpi {
  sk_totalPnl : Q;
  sk_tradeCount : nat;
  sk_totalFees : Q
}.

Record SpotResult := mkSpotResult {
  s_kpi : SpotKpi;
  s_chart_labels : list Z;
  s_chart_data : list Q;
  s_trades : list (nat * Realized)     (* ("S-<n>", trade) *)
}.

Definition min_buy_time (l : list Realized) : Z :=
  match l with
  | [] => 0%Z
  | r :: l' => fold_left Z.min (map r_buy_time l') (r_buy_time r)
  end.

Definition analyze_spot_trades (df : DataFrame) : Result SpotResult :=
  match realized_pnl df with
  | [] => error NoRealizedPnl
  | pnl_df =>
      let total_pnl := Qsum (map r_pnl pnl_df) in
      let fees := total_fees_paid (spot_fees_df df) in
      success
        {| s_kpi := {| sk_totalPnl := total_pnl - fees;
                       sk_tradeCount := List.length pnl_df;
                       sk_totalFees := fees |};
           s_chart_labels := min_buy_time pnl_df :: map r_sell_time pnl_df;
           s_chart_data := 0 :: cumsum 0 (map r_pnl pnl_df);
           s_trades := combine (seq 1 (List.length pnl_df)) pnl_df |}
  end.

(** ** Loading and dispatch: [load_and_process_files], [analyze_uploaded_files] *)

(** What [pd.read_csv] returns for one upload: the header and the rows. *)
Record Table := mkTable {
  columns : list string;
  rows : DataFrame
}.

(** An uploaded file; [parsed = None] when reading or parsing it raises. *)
Record CsvFile := mkCsvFile {
  filename : string;
  parsed : option Table
}.

Definition has_column (c : string) (t : Table) : bool :=
  existsb (String.eqb c) (columns t).

Definition upper_ascii (a : Ascii.ascii) : Ascii.ascii :=
  let n := Ascii.nat_of_ascii a in
  if ((97 <=? n) && (n <=? 122))%nat then Ascii.ascii_of_nat (n - 32) else a.

Definition lower_ascii (a : Ascii.ascii) : Ascii.ascii :=
  let n := Ascii.nat_of_ascii a in
  if ((65 <=? n) && (n <=? 90))%nat then Ascii.ascii_of_nat (n + 32) else a.

Fixpoint map_string (f : Ascii.ascii -> Ascii.ascii) (s : string) : string :=
  match s with
  | EmptyString => EmptyString
  | String a s' => String (f a) (map_string f s')
  end.

(** [sub in s] *)
Fixpoint contains (sub s : string) : bool :=
  String.prefix sub s
  || match s with
     | EmptyString => false
     | String _ s' => contains sub s'
     end.

(** [s.endswith(suffix)] *)
Fixpoint ends_with (suffix s : string) : bool :=
  String.eqb suffix s
  || match s with
     | EmptyString => false
     | String _ s' => ends_with suffix s'
     end.

Definition required_cols : list string :=
  ["Time(UTC)"; "Contract"; "Type"; "Direction"; "Quantity"; "Filled Price";
   "Fee Paid"; "Cash Flow"; "Action"; "Funding"; "Change"]%string.

(** [transform_legacy_to_uta] (type labels are taken to be ASCII). *)
Definition transform_legacy_to_uta (t : Table) : Table :=
  let cols :=
    map (fun c => if String.eqb c "Time" then "Time(UTC)"%string else c)
        (columns t) in
  let has_direction := existsb (String.eqb "Direction") cols in
  let has_type := existsb (String.eqb "Type") cols in
  let cols :=
    if has_direction && negb (existsb (String.eqb "Action") cols)
    then cols ++ ["Action"%string] else cols in
  let derive r :=
    let action :=
      if has_direction then
        if contains "Open" (Direction r) then "OPEN"%string
        else if contains "Close" (Direction r) then "CLOSE"%string
        else EmptyString
      else Action r in
    let type :=
      if has_type then
        let u := map_string upper_ascii (Type_ r) in
        if String.eqb u "FUNDING" then "SETTLEMENT"%string else u
      else Type_ r in
    mkRow (index_label r) (Time r) (Coin r) (Contract r) type (Direction r)
          action (Amount r) (Quantity r) (Fee_Paid r) (Cash_Flow r)
          (Funding r) (Change r) in
  {| columns :=
       cols ++ filter (fun c => negb (existsb (String.eqb c) cols)) required_cols;
     rows := map derive (rows t) |}.

Inductive FileType := spot | contract.

Definition FileType_eq_dec (a b : FileType) : {a = b} + {a <> b}.
Proof. decide equality. Defined.

(** One pass of the [for f in files] loop: the tag and the frame appended,
    if any. *)
Definition classify_file (f : CsvFile) : option (FileType * DataFrame) :=
  match parsed f with
  | None => None
  | Some df =>
      if has_column "Coin" df && has_column "Amount" df then
        Some (spot, rows df)
      else if has_column "Contract" df || has_column "Direction" df then
        if negb (has_column "Action" df) && has_column "Direction" df
        then Some (contract, rows (transform_legacy_to_uta df))
        else Some (contract, rows df)
      else None
  end.

Fixpoint classify_files (files : list CsvFile) : list (FileType * DataFrame) :=
  match files with
  | [] => []
  | f :: files' =>
      match classify_file f with
      | Some x => x :: classify_files files'
      | None => classify_files files'
      end
  end.

(** [pd.concat(df_list, ignore_index=True)] *)
Definition reindex (df : DataFrame) : DataFrame :=
  map (fun '(i, r) =>
         mkRow i (Time r) (Coin r) (Contract r) (Type_ r) (Direction r)
               (Action r) (Amount r) (Quantity r) (Fee_Paid r) (Cash_Flow r)
               (Funding r) (Change r))
      (combine (seq 0 (List.length df)) df).

Definition load_and_process_files (files : list CsvFile)
    : option DataFrame * list FileType :=
  let classified := classify_files files in
  match classified with
  | [] => (None, [])
  | _ => (Some (reindex (List.concat (map snd classified))),
          nodup FileType_eq_dec (map fst classified))
  end.

(** The 400 responses of [analyze_uploaded_files]. *)
Inductive RequestError :=
| NoFilesPart               (* "No files part in the request" *)
| NoSelectedFiles           (* "No selected files" *)
| NoCsvFiles                (* "No CSV files found." *)
| NoValidData               (* "No valid data found in files." *)
| MixedInstrumentTypes      (* "mixed_files" *)
| UnknownAnalysisType.      (* "Could not determine analysis type." *)

Inductive Response :=
| bad_request (e : RequestError)        (* status 400 *)
| analysis_error (e : ErrorMessage)     (* status 500 *)
| contract_analysis (r : ContractResult)
| spot_analysis (r : SpotResult).

Definition is_csv (f : CsvFile) : bool :=
  ends_with ".csv" (map_string lower_ascii (filename f)).

(** [files_part] is [request.files.getlist('files')] when the request has a
    ['files'] part; [threshold_hours] is the parsed form field. *)
Definition analyze_uploaded_files (files_part : option (list CsvFile))
    (threshold_hours : Z) : Response :=
  match files_part with
  | None => bad_request NoFilesPart
  | Some [] => bad_request NoSelectedFiles
  | Some ((f0 :: _) as files) =>
      if String.eqb (filename f0) "" then bad_request NoSelectedFiles
      else
        match filter is_csv files with
        | [] => bad_request NoCsvFiles
        | csv_files =>
            match load_and_process_files csv_files with
            | (None, _) | (Some [], _) => bad_request NoValidData
            | (Some df, file_types) =>
                if (1 <? List.length file_types)%nat
                then bad_request MixedInstrumentTypes
                else
                  match file_types with
                  | contract :: _ =>
                      match analyze_contract_trades df threshold_hours with
                      | error e => analysis_error e
                      | success r => contract_analysis r
                      end
                  | spot :: _ =>
                      match analyze_spot_trades df with
                      | error e => analysis_error e
                      | success r => spot_analysis r
                      end
                  | [] => bad_request UnknownAnalysisType
                  end
            end
        end
  end.

(** ** Vocabulary of the properties *)

Definition key_le {A : Type} (key : A -> Z) (x y : A) : Prop :=
  (key x <= key y)%Z.

(** [trace_all T pre its]: every iteration of [its] satisfies [T], told the
    iterations that ran before it ([pre] and the earlier ones of [its]). *)
Fixpoint trace_all (T : list Iter -> Iter -> Prop) (pre its : list Iter)
    : Prop :=
  match its with
  | [] => True
  | it :: its' => T pre it /\ trace_all T (pre ++ [it]) its'
  end.

(** The quantity that the matches of [pre] took from the lot opened by the
    row with index label [label]. *)
Definition consumed (pre : list Iter) (label : nat) : Q :=
  Qsum (map matched_qty
         (filter (fun j => (index_label (it_open_pos j) =? label)%nat) pre)).

(** The match left its lot at or below epsilon. *)
Definition exhausted (j : Iter) : Prop :=
  Quantity (it_open_pos j) - matched_qty j <= epsilon.

(** [lot] is the OPEN row [o] of [seen] with what [pre] left of its quantity. *)
Definition live_copy (seen : list Row) (pre : list Iter) (lot : Row) : Prop :=
  exists o R,
    In o seen /\ Action o = "OPEN"%string /\ lot = set_Quantity o R
    /\ R == Quantity o - consumed pre (index_label o).

Record queue_inv (seen : list Row) (pre : list Iter) (queue : list Row)
    : Prop := mkQueueInv {
  qi_live : forall lot, In lot queue -> live_copy seen pre lot;
  qi_nodup : NoDup (map index_label queue);
  qi_seen : forall j, In j pre ->
      In (index_label (it_open_pos j)) (map index_label seen);
  qi_gone : forall j, In j pre -> exhausted j ->
      ~ In (index_label (it_open_pos j)) (map index_label queue)
}.

(** What holds of every iteration: its lot is a live copy of an OPEN row,
    and no earlier match had exhausted that lot. *)
Definition live_match (seen : list Row) (pre : list Iter) (it : Iter) : Prop :=
  live_copy seen pre (it_open_pos it)
  /\ forall j, In j pre -> exhausted j ->
       index_label (it_open_pos j) <> index_label (it_open_pos it).


(** The sell match left its lot at or below epsilon. *)
Definition sell_exhausted (j : SellIter) : Prop :=
  l_qty (si_buy_lot j) - sell_matched_qty j <= epsilon.

(** The allocation read with the quotient taken whenever the remaining
    quantity is not zero. *)
Definition open_fee_quotient (it : Iter) : Q :=
  Fee_Paid (it_open_pos it)
  * (if Qeq_bool (Quantity (it_open_pos it)) 0 then 0
     else matched_qty it / Quantity (it_open_pos it)).

(** The group of [contract] in [analyze_contract_trades(df)], the iterations
    of its loop and the fills they append. *)
Definition batch_group (df : DataFrame) (contract : string) : DataFrame :=
  contract_group (trade_actions_rows (sort_values df)) contract.

Definition batch_trace (df : DataFrame) (contract : string) : list Iter :=
  group_loop (batch_group df contract) [].

Definition batch_fills (df : DataFrame) (contract : string) : list Fill :=
  contract_fills (funding_rows (sort_values df))
                 (trade_actions_rows (sort_values df)) contract.


(** ** Sample rows *)

Definition OPEN_row (i : nat) (t : Z) (c : string) (q fee : Q) : Row :=
  mkRow i t "" c "TRADE" "" "OPEN" 0 q fee 0 0 0.

Definition CLOSE_row (i : nat) (t : Z) (c : string) (q fee cash : Q) : Row :=
  mkRow i t "" c "TRADE" "" "CLOSE" 0 q fee cash 0 0.


Definition spot_row (i : nat) (t : Z) (c : string) (a : Q) : Row :=
  mkRow i t c "" "trade" "" "" a 0 0 0 0 0.

(** A lot opened with a negative quantity, then a close. *)
Definition negative_open_batch : DataFrame :=
  [OPEN_row 0 0 "BTCUSDT" (-5) 1; CLOSE_row 1 10 "BTCUSDT" 5 0 0].

(** One lot of 10 with fee 2, closed in two halves. *)
Definition two_halves_batch : DataFrame :=
  [OPEN_row 0 0 "BTCUSDT" 10 2; CLOSE_row 1 10 "BTCUSDT" 5 0 0;
   CLOSE_row 2 20 "BTCUSDT" 5 0 0].

(** Two lots of 5, then a close of 7 that exhausts the first. *)
Definition two_lots_batch : DataFrame :=
  [OPEN_row 0 0 "BTCUSDT" 5 0; OPEN_row 1 1 "BTCUSDT" 5 0;
   CLOSE_row 2 10 "BTCUSDT" 7 0 0].

(** Spot: 10 X bought for 20 USDT, then sold for 30 USDT. *)
Definition spot_round_trip : DataFrame :=
  [spot_row 0 1 "X" 10; spot_row 1 1 "USDT" (-20);
   spot_row 2 2 "X" (-10); spot_row 3 2 "USDT" 30].

(** One contract opened at time 0 and closed [seconds] later. *)
Definition held_batch (seconds : Z) : DataFrame :=
  [OPEN_row 0 0 "BTCUSDT" 1 0; CLOSE_row 1 seconds "BTCUSDT" 1 0 0].

(** The ['trades'] of a response, none for an error. *)
Definition trades_of (r : Result ContractResult) : list Trade :=
  match r with
  | success a => c_trades a
  | error _ => []
  end.

(** The tags and the concatenated frame of the CSV files of an upload. *)
Definition csv_tags (files : list CsvFile) : list FileType :=
  map fst (classify_files (filter is_csv files)).

Definition csv_frame (files : list CsvFile) : DataFrame :=
  reindex (List.concat (map snd (classify_files (filter is_csv files)))).

(** Two exports that hold a header and no data row. *)
Definition spot_header_only : CsvFile :=
  mkCsvFile "spot.csv"
    (Some (mkTable ["Time(UTC)"; "Coin"; "Type"; "Amount"]%string [])).

Definition contract_header_only : CsvFile :=
  mkCsvFile "contract.csv"
    (Some (mkTable ["Time(UTC)"; "Contract"; "Type"; "Action"; "Quantity"]%string
                   [])).

(** A spot export and a contract export, both with rows. *)
Definition spot_export : CsvFile :=
  mkCsvFile "spot.csv"
    (Some (mkTable ["Time(UTC)"; "Coin"; "Type"; "Amount"]%string
                   spot_round_trip)).

Definition contract_export : CsvFile :=
  mkCsvFile "contract.csv"
    (Some (mkTable ["Time(UTC)"; "Contract"; "Type"; "Action"; "Quantity"]%string
                   two_halves_batch)).

(** Two contracts, each opened at 0 and closed at 100. *)
Definition two_contracts_batch : DataFrame :=
  [OPEN_row 0 0 "BTCUSDT" 1 0; OPEN_row 1 0 "ETHUSDT" 1 0;
   CLOSE_row 2 100 "BTCUSDT" 1 0 3; CLOSE_row 3 100 "ETHUSDT" 1 0 7].

(** No two CLOSE trade rows of different contracts share a timestamp. *)
Definition closes_apart (df : DataFrame) : Prop :=
  forall r1 r2,
    In r1 df -> In r2 df ->
    Action r1 = "CLOSE"%string -> Action r2 = "CLOSE"%string ->
    Type_ r1 = "TRADE"%string -> Type_ r2 = "TRADE"%string ->
    Time r1 = Time r2 -> Contract r1 = Contract r2.




(** [lot] is the row [o] with some remaining quantity. *)
Definition copy_of (o lot : Row) : Prop := exists R, lot = set_Quantity o R.



(** ** Display of holding periods: [format_timedelta] *)

(** [divmod(a, b)] *)
Definition divmod (a b : Z) : Z * Z := ((a / b)%Z, (a mod b)%Z).

(** The [days] and [seconds] attributes of a timedelta. *)
Record Timedelta := mkTimedelta {
  td_days : Z;
  td_seconds : Z
}.

(** [pd.to_timedelta(s, unit='s')], read through [days] and [seconds]: the
    whole seconds of [s], split at the day. *)
Definition to_timedelta (s : Q) : Timedelta :=
  mkTimedelta (Qfloor s / 86400) (Qfloor s mod 86400).

(** The days, hours, minutes and seconds that [format_timedelta] prints. *)
Definition timedelta_fields (td : Timedelta) : Z * Z * Z * Z :=
  let days := td_days td in
  let (hours, remainder) := divmod (td_seconds td) 3600 in
  let (minutes, seconds) := divmod remainder 60 in
  (days, hours, minutes, seconds).

Definition string_of_Z (n : Z) : string :=
  NilZero.string_of_int (Z.to_int n).

(** The format [{n:02}]. *)
Definition pad2 (n : Z) : string :=
  let s := string_of_Z n in
  if (String.length s <? 2)%nat then ("0" ++ s)%string else s.

Definition format_timedelta (td : Timedelta) : string :=
  let '(days, hours, minutes, seconds) := timedelta_fields td in
  (string_of_Z days ++ "d " ++ pad2 hours ++ ":" ++ pad2 minutes ++ ":"
   ++ pad2 seconds)%string.

(** The ["holding_period"] of a trade of the response. *)
Definition holding_period_display (t : Trade) : string :=
  format_timedelta (to_timedelta (a_holding_period_seconds (t_agg t))).

(** ** Vocabulary of the further properties *)

Definition open_time (it : Iter) : Z := Time (it_open_pos it).


(** The running sums that [number_trades] starts from [acc]. *)
Fixpoint prefix_sums (acc : Q) (l : list Q) : list Q :=
  match l with
  | [] => []
  | x :: l' => (acc + x) :: prefix_sums (acc + x) l'
  end.


(** [lot] is one of the OPEN rows of [group], with some remaining quantity. *)
Definition opened_in (group : DataFrame) (lot : Row) : Prop :=
  exists o, In o group /\ Action o = "OPEN"%string /\ copy_of o lot.

(** [lot] was pushed on the queue of [coin] by a leg of [trades_df] that
    has a USDT trade row at its time. *)
Definition pushed_by (trades_df : DataFrame) (coin : string) (lot : SpotLot)
    : Prop :=
  exists row usdt,
    In row (all_trades trades_df) /\ Coin row = coin
    /\ l_label lot = index_label row /\ l_time lot = Time row
    /\ l_qty lot = Amount row
    /\ In usdt trades_df /\ Coin usdt = "USDT"%string
    /\ Time usdt = Time row
    /\ l_price lot = Qabs (Amount usdt) / Amount row.



(** * Properties *)

(** ** Decimal comparisons *)

Lemma Qlt_bool_iff (x y : Q) : Qlt_bool x y = true <-> x < y.
Proof.
  unfold Qlt_bool. rewrite negb_true_iff. split; intro H.
  - apply Qnot_le_lt. intro Hle. apply Qle_bool_iff in Hle. congruence.
  - destruct (Qle_bool y x) eqn:E; [|reflexivity].
    apply Qle_bool_iff in E. exfalso. apply (Qlt_not_le _ _ H E).
Qed.

Lemma Qlt_bool_false_iff (x y : Q) : Qlt_bool x y = false <-> y <= x.
Proof.
  unfold Qlt_bool. rewrite negb_false_iff. apply Qle_bool_iff.
Qed.

Lemma Qle_bool_false_iff (x y : Q) : Qle_bool x y = false <-> y < x.
Proof.
  split; intro H.
  - apply Qnot_le_lt. intro Hle. apply Qle_bool_iff in Hle. congruence.
  - destruct (Qle_bool x y) eqn:E; [|reflexivity].
    apply Qle_bool_iff in E. exfalso. apply (Qlt_not_le _ _ H E).
Qed.

Lemma epsilon_pos : 0 < epsilon.
Proof. reflexivity. Qed.

Lemma Qsum_app (l1 l2 : list Q) : Qsum (l1 ++ l2) == Qsum l1 + Qsum l2.
Proof.
  induction l1 as [|x l1 IH]; simpl.
  - lra.
  - rewrite IH. lra.
Qed.

(** ** The stable sort *)

Section StableSortFacts.
Context {A : Type} (key : A -> Z).

Lemma insert_by_perm (x : A) (l : list A) :
  Permutation (x :: l) (insert_by key x l).
Proof.
  induction l as [|y l IH]; simpl.
  - apply Permutation_refl.
  - destruct (key x <=? key y)%Z.
    + apply Permutation_refl.
    + eapply perm_trans; [apply perm_swap|]. apply perm_skip, IH.
Qed.

Lemma sort_by_perm (l : list A) : Permutation l (sort_by key l).
Proof.
  induction l as [|x l IH]; simpl.
  - apply perm_nil.
  - eapply perm_trans; [apply perm_skip, IH|]. apply insert_by_perm.
Qed.

Lemma sort_by_In (l : list A) (x : A) : In x (sort_by key l) <-> In x l.
Proof.
  split; apply Permutation_in;
    [apply Permutation_sym|]; apply sort_by_perm.
Qed.

Lemma insert_by_sorted (x : A) (l : list A) :
  StronglySorted (key_le key) l -> StronglySorted (key_le key) (insert_by key x l).
Proof.
  induction l as [|y l IH]; simpl; intro Hs.
  - constructor; [constructor|constructor].
  - inversion Hs as [|? ? Hs' Hall]; subst.
    destruct (key x <=? key y)%Z eqn:E.
    + apply Z.leb_le in E. constructor; [exact Hs|].
      constructor; [exact E|].
      eapply Forall_impl; [|exact Hall]. unfold key_le. intros; lia.
    + apply Z.leb_gt in E. constructor; [apply IH, Hs'|].
      eapply Permutation_Forall; [apply insert_by_perm|].
      constructor; [unfold key_le; lia|exact Hall].
Qed.

Lemma sort_by_sorted (l : list A) : StronglySorted (key_le key) (sort_by key l).
Proof.
  induction l as [|x l IH]; simpl.
  - constructor.
  - apply insert_by_sorted, IH.
Qed.

(** Sorting a sorted list changes nothing (the second sort of line 222
    and the one of line 305). *)
Lemma sort_by_id (l : list A) : StronglySorted (key_le key) l -> sort_by key l = l.
Proof.
  induction 1 as [|x l Hs IH Hall]; simpl; [reflexivity|].
  rewrite IH. destruct l as [|y l]; [reflexivity|]. simpl.
  inversion Hall as [|? ? Hxy _]; subst. unfold key_le in Hxy.
  apply Z.leb_le in Hxy. now rewrite Hxy.
Qed.
End StableSortFacts.

(** ** Termination of the matching loops *)

Lemma close_loop_done (fuel : nat) (row : Row) (q : Q) (queue : list Row) :
  q <= 0 -> close_loop (S fuel) row q queue = Some ([], queue).
Proof.
  intro Hq. simpl. destruct queue as [|lot rest]; [reflexivity|].
  apply Qlt_bool_false_iff in Hq. now rewrite Hq.
Qed.

(** After a match the head lot is either popped, or it stays and has
    absorbed the whole remaining close quantity. *)
Lemma decrement_head_cases (it : Iter) (rest : list Row) :
  (Quantity (it_open_pos it) - matched_qty it <= epsilon
   /\ decrement_head it rest = rest)
  \/ (epsilon < Quantity (it_open_pos it) - matched_qty it
      /\ it_qty_to_close it - matched_qty it == 0
      /\ decrement_head it rest
         = set_Quantity (it_open_pos it)
             (Quantity (it_open_pos it) - matched_qty it) :: rest).
Proof.
  unfold decrement_head. cbn [Quantity set_Quantity].
  destruct (Qle_bool _ epsilon) eqn:E.
  - left. apply Qle_bool_iff in E. now split.
  - right. apply Qle_bool_false_iff in E. split; [exact E|].
    split; [|reflexivity].
    pose proof epsilon_pos as He. unfold matched_qty in *.
    destruct (Q.min_spec (it_qty_to_close it) (Quantity (it_open_pos it)))
      as [[_ Hm]|[_ Hm]]; rewrite Hm in *; lra.
Qed.

Lemma close_loop_fuel (row : Row) (queue : list Row) :
  forall (fuel : nat) (q : Q),
    (List.length queue + 2 <= fuel)%nat ->
    exists r, close_loop fuel row q queue = Some r.
Proof.
  induction queue as [|lot rest IH]; intros fuel q Hf.
  - destruct fuel; [simpl in Hf; lia|]. now exists ([], []).
  - destruct fuel as [|fuel]; [simpl in Hf; lia|]. simpl in Hf. simpl.
    destruct (Qlt_bool 0 q) eqn:Hq; [|now eexists].
    set (it := mkIter row q lot).
    destruct (decrement_head_cases it rest) as [[_ Hd]|[_ [Hz Hd]]];
      rewrite Hd.
    + destruct (IH fuel (q - matched_qty it)) as [[its q'] Hr]; [lia|].
      rewrite Hr. now eexists.
    + destruct fuel as [|fuel]; [lia|].
      rewrite close_loop_done by (cbn [it_qty_to_close it] in Hz; lra).
      now eexists.
Qed.

Lemma match_close_fuel (row : Row) (queue : list Row) :
  exists fuel,
    close_loop fuel row (Quantity row) queue = Some (match_close row queue).
Proof.
  exists (List.length queue + 2)%nat. unfold match_close.
  destruct (close_loop_fuel row queue (List.length queue + 2) (Quantity row))
    as [r Hr]; [lia|]. now rewrite Hr.
Qed.

(** ** Traces of matches *)

Lemma trace_all_app T (a b pre : list Iter) :
  trace_all T pre (a ++ b) <-> trace_all T pre a /\ trace_all T (pre ++ a) b.
Proof.
  revert pre. induction a as [|x a IH]; intro pre; simpl.
  - rewrite app_nil_r. tauto.
  - rewrite IH, <- app_assoc. simpl. tauto.
Qed.

Lemma trace_all_split T (tr pre post : list Iter) (it : Iter) :
  trace_all T [] tr -> tr = pre ++ it :: post -> T pre it.
Proof.
  intros H ->. apply trace_all_app in H. simpl in H. tauto.
Qed.

Lemma trace_all_impl (T T' : list Iter -> Iter -> Prop) :
  (forall pre it, T pre it -> T' pre it) ->
  forall its pre, trace_all T pre its -> trace_all T' pre its.
Proof.
  intros HT its. induction its as [|x its IH]; intros pre; simpl; [tauto|].
  intros [H1 H2]. split; [now apply HT|now apply IH].
Qed.

Lemma consumed_snoc (pre : list Iter) (it : Iter) (label : nat) :
  consumed (pre ++ [it]) label
  == consumed pre label
     + (if (index_label (it_open_pos it) =? label)%nat
        then matched_qty it else 0).
Proof.
  unfold consumed. rewrite filter_app, map_app, Qsum_app. simpl.
  destruct (index_label (it_open_pos it) =? label)%nat; simpl; lra.
Qed.

Lemma live_copy_label seen pre lot :
  live_copy seen pre lot -> In (index_label lot) (map index_label seen).
Proof.
  intros (o & R & Ho & _ & -> & _). simpl. now apply in_map.
Qed.

Lemma live_copy_seen seen seen' pre lot :
  incl seen seen' -> live_copy seen pre lot -> live_copy seen' pre lot.
Proof.
  intros Hi (o & R & Ho & H). exists o, R. split; [now apply Hi|exact H].
Qed.

Lemma live_copy_other seen pre it lot :
  index_label (it_open_pos it) <> index_label lot ->
  live_copy seen pre lot -> live_copy seen (pre ++ [it]) lot.
Proof.
  intros Hne (o & R & Ho & Ha & -> & HR). exists o, R.
  repeat split; try assumption. rewrite consumed_snoc. simpl in Hne.
  apply Nat.eqb_neq in Hne. rewrite Hne. lra.
Qed.

Lemma live_copy_head seen pre it :
  live_copy seen pre (it_open_pos it) ->
  live_copy seen (pre ++ [it])
    (set_Quantity (it_open_pos it)
       (Quantity (it_open_pos it) - matched_qty it)).
Proof.
  intros (o & R & Ho & Ha & Hlot & HR).
  exists o, (Quantity (it_open_pos it) - matched_qty it).
  repeat split; try assumption.
  - rewrite Hlot. reflexivity.
  - rewrite consumed_snoc. rewrite Hlot at 2. simpl. rewrite Nat.eqb_refl.
    rewrite Hlot at 1. simpl. lra.
Qed.

Lemma close_loop_inv (row : Row) (seen : list Row) :
  forall fuel q queue its queue' pre,
    close_loop fuel row q queue = Some (its, queue') ->
    queue_inv seen pre queue ->
    queue_inv seen (pre ++ its) queue' /\ trace_all (live_match seen) pre its.
Proof.
  induction fuel as [|fuel IH]; intros q queue its queue' pre Hrun Hinv;
    [discriminate|].
  simpl in Hrun. destruct queue as [|lot rest].
  { injection Hrun as <- <-. rewrite app_nil_r. now split. }
  destruct (Qlt_bool 0 q); cycle 1.
  { injection Hrun as <- <-. rewrite app_nil_r. now split. }
  set (it := mkIter row q lot) in *.
  destruct (close_loop fuel row _ _) as [[its' q']|] eqn:Hrec; [|discriminate].
  injection Hrun as <- <-.
  destruct Hinv as [Hlive Hnd Hseen Hgone].
  assert (Hhead : live_copy seen pre lot) by (apply Hlive; now left).
  simpl in Hnd. apply NoDup_cons_iff in Hnd as [Hnotin Hnd].
  assert (Hstep : queue_inv seen (pre ++ [it]) (decrement_head it rest)).
  { assert (Hrest : forall l, In l rest -> live_copy seen (pre ++ [it]) l).
    { intros l Hl. apply live_copy_other; [|apply Hlive; now right].
      simpl. intro Heq. apply Hnotin. rewrite Heq. now apply in_map. }
    assert (Hseen' : forall j, In j (pre ++ [it]) ->
              In (index_label (it_open_pos j)) (map index_label seen)).
    { intros j Hj. apply in_app_or in Hj as [Hj|[<-|[]]]; [now apply Hseen|].
      simpl. eapply live_copy_label, Hhead. }
    destruct (decrement_head_cases it rest) as [[Hle Hd]|[Hgt [_ Hd]]];
      rewrite Hd.
    - constructor; try assumption.
      intros j Hj Hex. apply in_app_or in Hj as [Hj|[<-|[]]].
      + intro Hin. apply (Hgone j Hj Hex). simpl. now right.
      + exact Hnotin.
    - constructor.
      + intros l [<-|Hl]; [apply (live_copy_head seen pre it Hhead)|].
        now apply Hrest.
      + simpl. now constructor.
      + exact Hseen'.
      + intros j Hj Hex. apply in_app_or in Hj as [Hj|[<-|[]]].
        * apply (Hgone j Hj Hex).
        * unfold exhausted in Hex. lra. }
  destruct (IH _ _ _ _ _ Hrec Hstep) as [Hinv' Htr].
  rewrite <- app_assoc in Hinv'. split; [exact Hinv'|].
  simpl. split; [|exact Htr]. split; [exact Hhead|].
  intros j Hj Hex Heq. apply (Hgone j Hj Hex). simpl. now left.
Qed.

Lemma consumed_fresh (pre : list Iter) (label : nat) :
  (forall j, In j pre -> index_label (it_open_pos j) <> label) ->
  consumed pre label == 0.
Proof.
  intro H. unfold consumed.
  replace (filter _ pre) with (@nil Iter); [reflexivity|].
  induction pre as [|j pre IH]; simpl; [reflexivity|].
  destruct (Nat.eqb_spec (index_label (it_open_pos j)) label) as [E|_].
  - exfalso. apply (H j); [now left|exact E].
  - apply IH. intros k Hk. apply H. now right.
Qed.

Lemma set_Quantity_same (r : Row) : r = set_Quantity r (Quantity r).
Proof. now destruct r. Qed.

Lemma queue_inv_seen seen seen' pre queue :
  incl seen seen' -> queue_inv seen pre queue -> queue_inv seen' pre queue.
Proof.
  intros Hi [Hlive Hnd Hseen Hgone]. constructor; try assumption.
  - intros lot Hl. eapply live_copy_seen; eauto.
  - intros j Hj. eapply incl_map; eauto.
Qed.

Lemma queue_inv_open seen pre queue row :
  queue_inv seen pre queue ->
  ~ In (index_label row) (map index_label seen) ->
  Action row = "OPEN"%string ->
  queue_inv (seen ++ [row]) pre (queue ++ [row]).
Proof.
  intros [Hlive Hnd Hseen Hgone] Hfresh Hopen.
  assert (Hq : forall l, In l queue ->
            In (index_label l) (map index_label seen)).
  { intros l Hl. eapply live_copy_label, Hlive, Hl. }
  constructor.
  - intros lot Hl. apply in_app_or in Hl as [Hl|[<-|[]]].
    + eapply live_copy_seen; [apply incl_appl, incl_refl|now apply Hlive].
    + exists row, (Quantity row). split; [apply in_or_app; right; now left|].
      split; [exact Hopen|]. split; [apply set_Quantity_same|].
      rewrite consumed_fresh; [lra|].
      intros j Hj Heq. apply Hfresh. rewrite <- Heq. now apply Hseen.
  - rewrite map_app. simpl.
    apply NoDup_app; [exact Hnd|constructor; [intros []|constructor]|].
    intros a Ha [<-|[]]. apply Hfresh. apply in_map_iff in Ha as (l & <- & Hl).
    now apply Hq.
  - intros j Hj. rewrite map_app. apply in_or_app. left. now apply Hseen.
  - intros j Hj Hex. rewrite map_app. intro Hin.
    apply in_app_or in Hin as [Hin|[Heq|[]]].
    + now apply (Hgone j Hj Hex).
    + apply Hfresh. rewrite Heq. now apply Hseen.
Qed.

Lemma live_match_seen seen seen' :
  incl seen seen' ->
  forall pre it, live_match seen pre it -> live_match seen' pre it.
Proof.
  intros Hi pre it [H1 H2]. split; [|exact H2]. eapply live_copy_seen; eauto.
Qed.

Lemma group_loop_inv :
  forall rest_rows seen pre queue,
    NoDup (map index_label (seen ++ rest_rows)) ->
    queue_inv seen pre queue ->
    trace_all (live_match (seen ++ rest_rows)) pre (group_loop rest_rows queue).
Proof.
  induction rest_rows as [|row rest_rows IH]; intros seen pre queue Hnd Hinv;
    [exact I|].
  assert (Hfresh : ~ In (index_label row) (map index_label seen)).
  { rewrite map_app in Hnd. simpl in Hnd. apply NoDup_remove_2 in Hnd.
    intro Hin. apply Hnd. apply in_or_app. now left. }
  assert (Happ : seen ++ row :: rest_rows = (seen ++ [row]) ++ rest_rows)
    by (now rewrite <- app_assoc).
  rewrite Happ in *. simpl.
  destruct (String.eqb (Action row) "OPEN") eqn:Hopen.
  { apply IH; [exact Hnd|]. apply queue_inv_open; try assumption.
    now apply String.eqb_eq. }
  assert (Hinv' : queue_inv (seen ++ [row]) pre queue)
    by (eapply queue_inv_seen; [apply incl_appl, incl_refl|exact Hinv]).
  destruct (String.eqb (Action row) "CLOSE"); [|now apply IH].
  destruct (match_close_fuel row queue) as [fuel Hfuel].
  destruct (match_close row queue) as [its queue'].
  destruct (close_loop_inv row _ _ _ _ _ _ _ Hfuel Hinv') as [Hq Htr].
  apply trace_all_app. split; [|now apply IH].
  eapply trace_all_impl; [|exact Htr].
  apply live_match_seen, incl_appl, incl_refl.
Qed.

Lemma queue_inv_nil : queue_inv [] [] [].
Proof.
  constructor; simpl; try tauto. constructor.
Qed.

(** Every match of a group with distinct index labels takes a live copy of
    one of the group's OPEN rows, never one that an earlier match exhausted. *)
Lemma group_trace (group : DataFrame) :
  NoDup (map index_label group) ->
  trace_all (live_match group) [] (group_loop group []).
Proof.
  intro Hnd. apply (group_loop_inv group [] [] []); [exact Hnd|].
  apply queue_inv_nil.
Qed.

(** ** The group of a contract in a batch *)

(** Filtering and sorting a frame keep its index labels distinct. *)
Lemma filter_labels_distinct (keep : Row -> bool) (df : DataFrame) :
  NoDup (map index_label df) -> NoDup (map index_label (filter keep df)).
Proof.
  intro Hnd. induction df as [|row df IH]; simpl; [constructor|].
  simpl in Hnd. apply NoDup_cons_iff in Hnd as [Hrow Hdf].
  destruct (keep row); simpl; [|now apply IH].
  constructor; [|now apply IH]. intro Hin. apply Hrow.
  apply in_map_iff in Hin as (y & Hy & Hin). apply filter_In in Hin as [Hin _].
  rewrite <- Hy. now apply in_map.
Qed.

Lemma sort_labels_distinct (df : DataFrame) :
  NoDup (map index_label df) -> NoDup (map index_label (sort_values df)).
Proof.
  apply Permutation_NoDup, Permutation_map, sort_by_perm.
Qed.

Lemma batch_group_nodup (df : DataFrame) (c : string) :
  NoDup (map index_label df) -> NoDup (map index_label (batch_group df c)).
Proof.
  intro H. unfold batch_group, contract_group, trade_actions_rows.
  now apply sort_labels_distinct, filter_labels_distinct,
    filter_labels_distinct, sort_labels_distinct.
Qed.

Lemma batch_group_In (df : DataFrame) (c : string) (r : Row) :
  In r (batch_group df c) ->
  In r df /\ Contract r = c /\ Type_ r = "TRADE"%string
  /\ (Action r = "OPEN" \/ Action r = "CLOSE")%string.
Proof.
  unfold batch_group, contract_group, trade_actions_rows, sort_values.
  rewrite sort_by_In, filter_In, filter_In, sort_by_In.
  intros [[Hin Hp] Hc]. apply String.eqb_eq in Hc.
  apply andb_true_iff in Hp as [Ha Ht]. apply String.eqb_eq in Ht.
  apply orb_true_iff in Ha. rewrite !String.eqb_eq in Ha. tauto.
Qed.

Lemma batch_group_sorted (df : DataFrame) (c : string) :
  StronglySorted (key_le Time) (batch_group df c).
Proof. apply sort_by_sorted. Qed.


(** ** Open-fee allocation *)

(** C4, as amended: for every match, the open fee part is the fee of the
    OPEN row times matched quantity over [R], where [R] is what the earlier
    matches left of that row's quantity (not the row's own quantity); the
    ratio is 0 when [R] is zero or negative. *)
Theorem open_fee_over_live_remainder
    (df : DataFrame) (contract : string) (pre post : list Iter) (it : Iter) :
  NoDup (map index_label df) ->
  batch_trace df contract = pre ++ it :: post ->
  exists o R,
    In o df /\ Action o = "OPEN"%string /\ Contract o = contract
    /\ it_open_pos it = set_Quantity o R
    /\ R == Quantity o - consumed pre (index_label o)
    /\ open_fee_part it
       == Fee_Paid o * (if Qlt_bool 0 R then matched_qty it / R else 0).
Proof.
  intros Hnd Htr.
  pose proof (group_trace _ (batch_group_nodup df contract Hnd)) as Hall.
  destruct (trace_all_split _ _ _ _ _ Hall Htr)
    as [(o & R & Ho & Ha & Hlot & HR) _].
  apply batch_group_In in Ho as (Hin & Hc & _).
  exists o, R. repeat split; try assumption.
  unfold open_fee_part, open_fee_ratio. rewrite Hlot. simpl. reflexivity.
Qed.

Lemma open_fee_over_live_remainder_witness :
  let it1 := mkIter (CLOSE_row 1 10 "BTCUSDT" 5 0 0) 5
                    (OPEN_row 0 0 "BTCUSDT" 10 2) in
  let it2 := mkIter (CLOSE_row 2 20 "BTCUSDT" 5 0 0) 5
                    (OPEN_row 0 0 "BTCUSDT" 5 2) in
  NoDup (map index_label two_halves_batch)
  /\ batch_trace two_halves_batch "BTCUSDT" = [it1] ++ it2 :: []
  /\ exists o R,
       In o two_halves_batch /\ Action o = "OPEN"%string
       /\ Contract o = "BTCUSDT"%string
       /\ it_open_pos it2 = set_Quantity o R
       /\ R == Quantity o - consumed [it1] (index_label o)
       /\ open_fee_part it2
          == Fee_Paid o * (if Qlt_bool 0 R then matched_qty it2 / R else 0).
Proof.
  intros it1 it2.
  assert (Hnd : NoDup (map index_label two_halves_batch)).
  { vm_compute. repeat constructor; simpl; intuition discriminate. }
  assert (Htr : batch_trace two_halves_batch "BTCUSDT" = [it1] ++ it2 :: [])
    by reflexivity.
  split; [exact Hnd|]. split; [exact Htr|].
  exact (open_fee_over_live_remainder two_halves_batch "BTCUSDT"
           [it1] [] it2 Hnd Htr).
Defined.

(** The quotient is not taken for a lot opened with a negative quantity:
    the guard of line 238 yields 0 where the quotient is 1. *)
Lemma open_fee_of_negative_lot :
  let it := mkIter (CLOSE_row 1 10 "BTCUSDT" 5 0 0) 5
                   (OPEN_row 0 0 "BTCUSDT" (-5) 1) in
  batch_trace negative_open_batch "BTCUSDT" = [it]
  /\ Quantity (it_open_pos it) == -5
  /\ open_fee_quotient it == 1
  /\ open_fee_part it == 0
  /\ ~ open_fee_part it == open_fee_quotient it.
Proof.
  repeat split; try reflexivity. vm_compute. discriminate.
Qed.

(** ** The sell loop of the spot engine *)

Lemma sell_loop_done (fuel : nat) (row : Row) (p q : Q) (lots : list SpotLot) :
  q <= 0 -> sell_loop (S fuel) row p q lots = Some ([], lots).
Proof.
  intro Hq. simpl. destruct lots as [|lot rest]; [reflexivity|].
  apply Qlt_bool_false_iff in Hq. now rewrite Hq.
Qed.

Lemma decrement_lot_cases (it : SellIter) (rest : list SpotLot) :
  (sell_exhausted it /\ decrement_lot it rest = rest)
  \/ (~ sell_exhausted it
      /\ si_qty_to_sell it - sell_matched_qty it == 0
      /\ decrement_lot it rest
         = set_qty (si_buy_lot it)
             (l_qty (si_buy_lot it) - sell_matched_qty it) :: rest).
Proof.
  unfold decrement_lot, sell_exhausted. cbn [l_qty set_qty].
  destruct (Qle_bool _ epsilon) eqn:E.
  - left. apply Qle_bool_iff in E. now split.
  - right. apply Qle_bool_false_iff in E. split; [lra|].
    split; [|reflexivity].
    pose proof epsilon_pos as He. unfold sell_matched_qty in *.
    destruct (Q.min_spec (si_qty_to_sell it) (l_qty (si_buy_lot it)))
      as [[_ Hm]|[_ Hm]]; rewrite Hm in *; lra.
Qed.

Lemma sell_loop_fuel (row : Row) (p : Q) (lots : list SpotLot) :
  forall (fuel : nat) (q : Q),
    (List.length lots + 2 <= fuel)%nat ->
    exists r, sell_loop fuel row p q lots = Some r.
Proof.
  induction lots as [|lot rest IH]; intros fuel q Hf.
  - destruct fuel; [simpl in Hf; lia|]. now exists ([], []).
  - destruct fuel as [|fuel]; [simpl in Hf; lia|]. simpl in Hf. simpl.
    destruct (Qlt_bool 0 q) eqn:Hq; [|now eexists].
    set (it := mkSellIter row p q lot).
    destruct (decrement_lot_cases it rest) as [[_ Hd]|[_ [Hz Hd]]];
      rewrite Hd.
    + destruct (IH fuel (q - sell_matched_qty it)) as [[its q'] Hr]; [lia|].
      rewrite Hr. now eexists.
    + destruct fuel as [|fuel]; [lia|].
      rewrite sell_loop_done by (cbn [si_qty_to_sell it] in Hz; lra).
      now eexists.
Qed.

Lemma match_sell_fuel (row : Row) (p : Q) (lots : list SpotLot) :
  exists fuel,
    sell_loop fuel row p (Amount row) lots = Some (match_sell row p lots).
Proof.
  exists (List.length lots + 2)%nat. unfold match_sell.
  destruct (sell_loop_fuel row p lots (List.length lots + 2) (Amount row))
    as [r Hr]; [lia|]. now rewrite Hr.
Qed.

(** One sell loop matches each lot at most once, and only lots of its queue. *)
Lemma sell_loop_labels (row : Row) (p : Q) :
  forall fuel q lots its lots',
    sell_loop fuel row p q lots = Some (its, lots') ->
    NoDup (map l_label lots) ->
    NoDup (map (fun it => l_label (si_buy_lot it)) its)
    /\ incl (map (fun it => l_label (si_buy_lot it)) its) (map l_label lots).
Proof.
  induction fuel as [|fuel IH]; intros q lots its lots' Hrun Hnd;
    [discriminate|].
  simpl in Hrun. destruct lots as [|lot rest].
  { injection Hrun as <- <-. split; [constructor|apply incl_refl]. }
  destruct (Qlt_bool 0 q); cycle 1.
  { injection Hrun as <- <-. split; [constructor|intros x []]. }
  set (it := mkSellIter row p q lot) in *.
  destruct (sell_loop fuel row p _ _) as [[its' q']|] eqn:Hrec; [|discriminate].
  injection Hrun as <- <-. simpl in Hnd.
  apply NoDup_cons_iff in Hnd as [Hnotin Hnd]. simpl.
  destruct (decrement_lot_cases it rest) as [[_ Hd]|[_ [Hz Hd]]];
    rewrite Hd in Hrec.
  - destruct (IH _ _ _ _ Hrec Hnd) as [Hn Hi]. split.
    + constructor; [|exact Hn]. intro Hin. apply Hnotin. now apply Hi.
    + intros x [<-|Hx]; [now left|right; now apply Hi].
  - destruct fuel as [|fuel]; [discriminate|].
    rewrite sell_loop_done in Hrec by (cbn [si_qty_to_sell it] in Hz; lra).
    injection Hrec as <- <-. split.
    + constructor; [intros []|constructor].
    + intros x [<-|[]]. now left.
Qed.

(** *** The sell loop is never entered *)

Lemma all_trades_positive (trades_df : DataFrame) (row : Row) :
  In row (all_trades trades_df) -> 0 < Amount row.
Proof.
  unfold all_trades, sort_values. rewrite sort_by_In. intro H.
  apply in_app_or in H as [H|H].
  - apply filter_In in H as [_ H]. now apply Qlt_bool_iff.
  - unfold sells in H. apply in_map_iff in H as (r & <- & H).
    apply filter_In in H as [_ H]. apply Qlt_bool_iff in H. simpl.
    rewrite Qabs_neg by lra. lra.
Qed.

(** [is_buy] reads the amount after [abs()]: it holds of every leg. *)
Lemma is_buy_all_trades (trades_df : DataFrame) (row : Row) :
  In row (all_trades trades_df) -> is_buy row = true.
Proof.
  intro H. apply Qlt_bool_iff. now apply all_trades_positive in H.
Qed.

Lemma spot_step_buy (trades_df : DataFrame) st (row : Row) :
  is_buy row = true -> snd (spot_step trades_df st row) = snd st.
Proof.
  intro Hb. unfold spot_step. destruct st as [inv its]. rewrite Hb.
  now destruct (usdt_trade trades_df (Time row)).
Qed.

Lemma spot_fold_buys (trades_df : DataFrame) (legs : list Row) :
  forall st,
    (forall row, In row legs -> is_buy row = true) ->
    snd (fold_left (spot_step trades_df) legs st) = snd st.
Proof.
  induction legs as [|row legs IH]; intros st H; simpl; [reflexivity|].
  rewrite IH by (intros r Hr; apply H; now right).
  apply spot_step_buy, H. now left.
Qed.

(** No batch makes the spot engine emit a fill. *)
Lemma spot_never_matches (df : DataFrame) : snd (spot_run df) = [].
Proof.
  unfold spot_run. rewrite spot_fold_buys; [reflexivity|].
  intros row. apply is_buy_all_trades.
Qed.

Lemma realized_pnl_nil (df : DataFrame) : realized_pnl df = [].
Proof. unfold realized_pnl. now rewrite spot_never_matches. Qed.

(** Every spot analysis ends in the [NoRealizedPnl] error. *)
Lemma analyze_spot_trades_error (df : DataFrame) :
  analyze_spot_trades df = error NoRealizedPnl.
Proof. unfold analyze_spot_trades. now rewrite realized_pnl_nil. Qed.

(** The sell loop, whenever it is run on a positive quantity: the matches
    sum to at most that quantity, and to exactly that unless the queue ran
    empty. *)
Lemma sell_loop_conservation (row : Row) (p : Q) :
  forall fuel q lots its lots',
    sell_loop fuel row p q lots = Some (its, lots') ->
    0 <= q ->
    Qsum (map sell_matched_qty its) <= q
    /\ (lots' <> [] -> Qsum (map sell_matched_qty its) == q).
Proof.
  induction fuel as [|fuel IH]; intros q lots its lots' Hrun Hq;
    [discriminate|].
  simpl in Hrun. destruct lots as [|lot rest].
  { injection Hrun as <- <-. simpl. split; [exact Hq|tauto]. }
  destruct (Qlt_bool 0 q) eqn:Hpos; cycle 1.
  { injection Hrun as <- <-. apply Qlt_bool_false_iff in Hpos. simpl.
    split; [exact Hq|intros _; lra]. }
  set (it := mkSellIter row p q lot) in *.
  destruct (sell_loop fuel row p _ _) as [[its' q']|] eqn:Hrec; [|discriminate].
  injection Hrun as <- <-.
  assert (Hm : sell_matched_qty it <= q)
    by (unfold sell_matched_qty; simpl; apply Q.le_min_l).
  destruct (IH _ _ _ _ Hrec) as [Ha Hb]; [lra|].
  simpl. split; [lra|]. intro Hne. rewrite (Hb Hne). lra.
Qed.

(** ** Epsilon exhaustion *)

(** C5: in both engines a match that leaves its lot at or below 1e-9 is
    followed at once by the removal of the lot (the loop goes on with the
    rest of the queue), and no later match takes a lot that an earlier match
    had left at or below 1e-9.  Lots are told apart by the index label of
    the row that opened them. *)
Theorem exhausted_lot_not_matched_again :
  (forall fuel row q lot rest,
     0 < q -> exhausted (mkIter row q lot) ->
     close_loop (S fuel) row q (lot :: rest)
     = match close_loop fuel row (q - matched_qty (mkIter row q lot)) rest with
       | Some (its, queue) => Some (mkIter row q lot :: its, queue)
       | None => None
       end)
  /\ (forall df contract pre it post j,
        NoDup (map index_label df) ->
        batch_trace df contract = pre ++ it :: post ->
        In j pre -> exhausted j ->
        index_label (it_open_pos j) <> index_label (it_open_pos it))
  /\ (forall fuel row p q lot rest,
        0 < q -> sell_exhausted (mkSellIter row p q lot) ->
        sell_loop (S fuel) row p q (lot :: rest)
        = match sell_loop fuel row p
                  (q - sell_matched_qty (mkSellIter row p q lot)) rest with
          | Some (its, lots) => Some (mkSellIter row p q lot :: its, lots)
          | None => None
          end)
  /\ (forall row p lots pre it post j,
        NoDup (map l_label lots) ->
        fst (match_sell row p lots) = pre ++ it :: post ->
        In j pre -> sell_exhausted j ->
        l_label (si_buy_lot j) <> l_label (si_buy_lot it))
  /\ (forall df pre it post j,
        snd (spot_run df) = pre ++ it :: post ->
        In j pre -> sell_exhausted j ->
        l_label (si_buy_lot j) <> l_label (si_buy_lot it)).
Proof.
  repeat split.
  - intros fuel row q lot rest Hq Hex. simpl.
    apply Qlt_bool_iff in Hq. rewrite Hq.
    destruct (decrement_head_cases (mkIter row q lot) rest)
      as [[_ Hd]|[Hgt _]]; [now rewrite Hd|].
    unfold exhausted in Hex. lra.
  - intros df c pre it post j Hnd Htr Hj Hex.
    pose proof (group_trace _ (batch_group_nodup df c Hnd)) as Hall.
    destruct (trace_all_split _ _ _ _ _ Hall Htr) as [_ Hnever].
    now apply Hnever.
  - intros fuel row p q lot rest Hq Hex. simpl.
    apply Qlt_bool_iff in Hq. rewrite Hq.
    destruct (decrement_lot_cases (mkSellIter row p q lot) rest)
      as [[_ Hd]|[Hn _]]; [now rewrite Hd|contradiction].
  - intros row p lots pre it post j Hnd Htr Hj _ Heq.
    destruct (match_sell_fuel row p lots) as [fuel Hfuel].
    destruct (match_sell row p lots) as [its lots']. simpl in Htr. subst its.
    destruct (sell_loop_labels _ _ _ _ _ _ _ Hfuel Hnd) as [Hn _].
    rewrite map_app in Hn. simpl in Hn. apply NoDup_remove_2 in Hn.
    apply Hn, in_or_app. left. rewrite <- Heq.
    now apply (in_map (fun it => l_label (si_buy_lot it))).
  - intros df pre it post j Htr. rewrite spot_never_matches in Htr.
    now destruct pre.
Qed.

Lemma exhausted_lot_not_matched_again_witness :
  let j := mkIter (CLOSE_row 2 10 "BTCUSDT" 7 0 0) 7
                  (OPEN_row 0 0 "BTCUSDT" 5 0) in
  let it := mkIter (CLOSE_row 2 10 "BTCUSDT" 7 0 0) 2
                   (OPEN_row 1 1 "BTCUSDT" 5 0) in
  NoDup (map index_label two_lots_batch)
  /\ batch_trace two_lots_batch "BTCUSDT" = [j] ++ it :: []
  /\ In j [j] /\ exhausted j
  /\ index_label (it_open_pos j) <> index_label (it_open_pos it).
Proof.
  intros j it.
  assert (Hnd : NoDup (map index_label two_lots_batch)).
  { vm_compute. repeat constructor; simpl; intuition discriminate. }
  assert (Htr : batch_trace two_lots_batch "BTCUSDT" = [j] ++ it :: [])
    by reflexivity.
  assert (Hj : In j [j]) by (now left).
  assert (Hex : exhausted j) by (vm_compute; discriminate).
  repeat split; try assumption.
  exact (proj1 (proj2 exhausted_lot_not_matched_again)
           two_lots_batch "BTCUSDT"%string [j] it [] j Hnd Htr Hj Hex).
Defined.

(** ** Quantity conservation *)

(** The loop of a CLOSE row with a non-negative quantity: every match is at
    most the remaining close quantity and at most the lot; the matches sum
    to at most the row's quantity, and to exactly that unless the queue ran
    empty; a lot left in the queue is untouched or holds more than epsilon. *)
Lemma close_loop_conservation (row : Row) :
  forall fuel q queue its queue',
    close_loop fuel row q queue = Some (its, queue') ->
    0 <= q ->
    Forall (fun it => matched_qty it <= it_qty_to_close it
                      /\ matched_qty it <= Quantity (it_open_pos it)) its
    /\ Qsum (map matched_qty its) <= q
    /\ (queue' <> [] -> Qsum (map matched_qty its) == q)
    /\ Forall (fun lot => In lot queue \/ epsilon < Quantity lot) queue'.
Proof.
  induction fuel as [|fuel IH]; intros q queue its queue' Hrun Hq;
    [discriminate|].
  simpl in Hrun. destruct queue as [|lot rest].
  { injection Hrun as <- <-. simpl.
    split; [constructor|]. split; [exact Hq|]. split; [tauto|constructor]. }
  destruct (Qlt_bool 0 q) eqn:Hpos; cycle 1.
  { injection Hrun as <- <-. apply Qlt_bool_false_iff in Hpos. simpl.
    split; [constructor|]. split; [exact Hq|]. split; [intros _; lra|].
    apply Forall_forall. intros l Hl. now left. }
  set (it := mkIter row q lot) in *.
  destruct (close_loop fuel row _ _) as [[its' q']|] eqn:Hrec; [|discriminate].
  injection Hrun as <- <-.
  assert (Hm : matched_qty it <= q /\ matched_qty it <= Quantity lot).
  { unfold matched_qty. simpl. split; [apply Q.le_min_l|apply Q.le_min_r]. }
  destruct (IH _ _ _ _ Hrec) as (Ha & Hb & Hc & Hd); [lra|].
  simpl. repeat split.
  - constructor; [exact Hm|exact Ha].
  - lra.
  - intro Hne. rewrite (Hc Hne). lra.
  - eapply Forall_impl; [|exact Hd]. intros l [Hl|Hl]; [|now right].
    destruct (decrement_head_cases it rest) as [[_ Heq]|[Hgt [_ Heq]]];
      rewrite Heq in Hl.
    + left. now right.
    + destruct Hl as [<-|Hl]; [now right|left; now right].
Qed.

Lemma match_close_conservation (row : Row) (queue : list Row) :
  0 <= Quantity row ->
  let (its, queue') := match_close row queue in
  Qsum (map matched_qty its) <= Quantity row
  /\ (queue' <> [] -> Qsum (map matched_qty its) == Quantity row)
  /\ Forall (fun lot => In lot queue \/ epsilon < Quantity lot) queue'.
Proof.
  intro Hq. destruct (match_close_fuel row queue) as [fuel Hfuel].
  destruct (match_close row queue) as [its queue'].
  destruct (close_loop_conservation _ _ _ _ _ _ Hfuel Hq) as (_ & H). exact H.
Qed.

(** C3, at a buy of 10 X followed by a sell of 10 X, each with its USDT leg:
    the sell leg is taken for a buy ([is_buy] is read after [abs()]), a
    second lot is pushed and nothing is matched, although the queue of X
    holds 10 when the sell is processed. *)
Theorem sell_leg_is_not_matched :
  realized_pnl spot_round_trip = []
  /\ analyze_spot_trades spot_round_trip = error NoRealizedPnl
  /\ map (fun l => (l_label l, l_time l, Qred (l_qty l), Qred (l_price l)))
         (inv_get (fst (spot_run spot_round_trip)) "X")
     = [(0%nat, 1%Z, 10, 2); (2%nat, 2%Z, 10, 3)].
Proof. repeat split; reflexivity. Qed.

(** ** Implied price of a spot leg *)

Lemma inv_get_set (inv : Inventory) (c c' : string) (q : list SpotLot) :
  inv_get (inv_set inv c q) c'
  = if String.eqb c c' then q else inv_get inv c'.
Proof.
  induction inv as [|[d q0] inv IH]; simpl; [reflexivity|].
  destruct (String.eqb_spec d c) as [->|Hdc]; simpl.
  - now destruct (String.eqb c c').
  - rewrite IH. destruct (String.eqb_spec d c') as [->|Hdc']; [|reflexivity].
    destruct (String.eqb_spec c c') as [->|_]; [congruence|reflexivity].
Qed.

Lemma inv_get_not_mem (inv : Inventory) (c : string) :
  inv_mem c inv = false -> inv_get inv c = [].
Proof.
  induction inv as [|[d q0] inv IH]; simpl; [reflexivity|].
  intro H. apply orb_false_iff in H as [Hd Hm]. rewrite Hd. now apply IH.
Qed.

(** [if coin not in inventory: inventory[coin] = deque()] adds no lot. *)
Lemma inv_get_ensure (inv : Inventory) (c c' : string) :
  inv_get (if inv_mem c inv then inv else inv_set inv c []) c' = inv_get inv c'.
Proof.
  destruct (inv_mem c inv) eqn:E; [reflexivity|].
  rewrite inv_get_set. destruct (String.eqb_spec c c') as [<-|_]; [|reflexivity].
  symmetry. now apply inv_get_not_mem.
Qed.




(** ** Aggregated trades *)



Lemma number_trades_length th (l : list Agg) :
  forall i cp cf, List.length (number_trades th i cp cf l) = List.length l.
Proof.
  induction l as [|a l IH]; intros i cp cf; simpl; [reflexivity|].
  now rewrite IH.
Qed.

Lemma number_trades_In th (l : list Agg) :
  forall i cp cf t,
    In t (number_trades th i cp cf l) ->
    In (t_agg t) l
    /\ t_type t = classify th (a_holding_period_seconds (t_agg t)).
Proof.
  induction l as [|a l IH]; intros i cp cf t; simpl; [tauto|].
  intros [<-|Hin]; [simpl; tauto|].
  destruct (IH _ _ _ _ Hin) as [H1 H2]. tauto.
Qed.

(** The trades of a successful contract analysis. *)
Lemma contract_success_trades (df : DataFrame) (th : Z) (r : ContractResult) :
  analyze_contract_trades df th = success r ->
  df <> [] /\ classified_trades df <> []
  /\ c_trades r
     = number_trades th 0 0 0 (grouped_trades (classified_trades df)).
Proof.
  unfold analyze_contract_trades. destruct df as [|row df]; [discriminate|].
  destruct (classified_trades (row :: df)) as [|f fills]; [discriminate|].
  intro H. injection H as <-. repeat split; discriminate.
Qed.

Lemma classify_spec (th : Z) (h : Q) :
  (classify th h = SWING <-> inject_Z (th * 3600) < h)
  /\ (classify th h = DAY_TRADE <-> h <= inject_Z (th * 3600)).
Proof.
  unfold classify, threshold_seconds.
  destruct (Qlt_bool (inject_Z (th * 3600)) h) eqn:E.
  - apply Qlt_bool_iff in E. repeat split; try tauto; try discriminate.
    intro H. exfalso. apply (Qlt_not_le _ _ E H).
  - apply Qlt_bool_false_iff in E. repeat split; try tauto; try discriminate.
    intro H. exfalso. apply (Qlt_not_le _ _ H E).
Qed.

(** ** Classification boundary *)


(** Held for exactly 24 hours under the default threshold: a day trade. *)
Example held_exactly_threshold :
  map (fun t => (t_type t, Qred (a_holding_period_seconds (t_agg t))))
      (trades_of (analyze_contract_trades (held_batch 86400) 24))
  = [(DAY_TRADE, 86400)].
Proof. reflexivity. Qed.

(** Held one second longer: a swing trade. *)
Example held_one_second_more :
  map (fun t => (t_type t, Qred (a_holding_period_seconds (t_agg t))))
      (trades_of (analyze_contract_trades (held_batch 86401) 24))
  = [(SWING, 86401)].
Proof. reflexivity. Qed.


(** ** Empty results *)



(** ** Mixed batches *)

(** The frame that [load_and_process_files] returns has distinct index
    labels. *)
Lemma reindex_labels (df : DataFrame) :
  map index_label (reindex df) = seq 0 (List.length df).
Proof.
  unfold reindex. generalize 0%nat.
  induction df as [|row df IH]; intro n; simpl; [reflexivity|].
  now rewrite IH.
Qed.

Lemma reindex_labels_distinct (df : DataFrame) :
  NoDup (map index_label (reindex df)).
Proof. rewrite reindex_labels. apply seq_NoDup. Qed.

Lemma nodup_two_tags (tags : list FileType) :
  In spot tags -> In contract tags ->
  (1 < List.length (nodup FileType_eq_dec tags))%nat.
Proof.
  intros Hs Hc.
  apply (nodup_In FileType_eq_dec) in Hs.
  apply (nodup_In FileType_eq_dec) in Hc.
  destruct (nodup FileType_eq_dec tags) as [|a [|b l]]; simpl in *.
  - tauto.
  - destruct Hs as [Ha|[]]. destruct Hc as [Hb|[]]. congruence.
  - lia.
Qed.

(** C9, as amended: an upload that passes the upload checks (a files part
    whose first file is named) and whose CSV files hold a spot-signature
    file and a contract-signature file is answered 400 without running an
    engine: with [MixedInstrumentTypes] when the files hold a data row, with
    [NoValidData] when they hold none. *)
Theorem mixed_batch_is_rejected
    (f0 : CsvFile) (others : list CsvFile) (threshold_hours : Z) :
  filename f0 <> EmptyString ->
  In spot (csv_tags (f0 :: others)) ->
  In contract (csv_tags (f0 :: others)) ->
  analyze_uploaded_files (Some (f0 :: others)) threshold_hours
  = match csv_frame (f0 :: others) with
    | [] => bad_request NoValidData
    | _ :: _ => bad_request MixedInstrumentTypes
    end.
Proof.
  intros Hname Hs Hc. unfold csv_tags, csv_frame in *.
  unfold analyze_uploaded_files.
  apply String.eqb_neq in Hname. rewrite Hname.
  destruct (filter is_csv (f0 :: others)) as [|f csv] eqn:Ecsv;
    [destruct Hs|].
  unfold load_and_process_files.
  destruct (classify_files (f :: csv)) as [|x cl] eqn:Ecl; [destruct Hs|].
  destruct (reindex _) as [|row df]; [reflexivity|].
  pose proof (nodup_two_tags _ Hs Hc) as Hlen.
  apply Nat.ltb_lt in Hlen. now rewrite Hlen.
Qed.

Lemma mixed_batch_is_rejected_witness :
  filename spot_export <> EmptyString
  /\ In spot (csv_tags [spot_export; contract_export])
  /\ In contract (csv_tags [spot_export; contract_export])
  /\ analyze_uploaded_files (Some [spot_export; contract_export]) 24
     = bad_request MixedInstrumentTypes.
Proof.
  assert (Hname : filename spot_export <> EmptyString) by discriminate.
  assert (Hs : In spot (csv_tags [spot_export; contract_export]))
    by (vm_compute; tauto).
  assert (Hc : In contract (csv_tags [spot_export; contract_export]))
    by (vm_compute; tauto).
  split; [exact Hname|]. split; [exact Hs|]. split; [exact Hc|].
  exact (mixed_batch_is_rejected spot_export [contract_export] 24
           Hname Hs Hc).
Defined.

(** Two header-only exports, one of each signature: two tags, and the
    answer is [NoValidData]. *)
Lemma header_only_batch_is_no_valid_data :
  csv_tags [spot_header_only; contract_header_only] = [spot; contract]
  /\ analyze_uploaded_files (Some [spot_header_only; contract_header_only]) 24
     = bad_request NoValidData
  /\ analyze_uploaded_files (Some [spot_header_only; contract_header_only]) 24
     <> bad_request MixedInstrumentTypes.
Proof.
  repeat split; try reflexivity. discriminate.
Qed.

(** ** Open fees of a lot closed in two halves *)

(** C10: in [two_halves_batch] one lot of 10 with fee 2 is consumed by two
    CLOSE rows of 5; the open fee parts of the two matches are 1 and 2,
    one and a half times the fee of the lot. *)
Theorem open_fee_allocated_beyond_the_fee :
  let o := OPEN_row 0 0 "BTCUSDT" 10 2 in
  exists it1 it2,
    batch_trace two_halves_batch "BTCUSDT" = [it1; it2]
    /\ it_open_pos it1 = o
    /\ index_label (it_open_pos it2) = index_label o
    /\ Fee_Paid (it_open_pos it2) = Fee_Paid o
    /\ Quantity (it_row it1) == Quantity (it_row it2)
    /\ matched_qty it1 + matched_qty it2 == Quantity o
    /\ 0 < Fee_Paid o
    /\ open_fee_part it1 == 1 /\ open_fee_part it2 == 2
    /\ open_fee_part it1 + open_fee_part it2 == (3 # 2) * Fee_Paid o
    /\ Fee_Paid o < open_fee_part it1 + open_fee_part it2
    /\ map (fun f => Qred (f_trade_fees f))
           (batch_fills two_halves_batch "BTCUSDT") = [1; 2].
Proof.
  eexists. eexists. split; [reflexivity|].
  repeat split; reflexivity.
Qed.

(** ** Which fills a trade merges *)

Lemma close_loop_rows (row : Row) :
  forall fuel q queue its queue',
    close_loop fuel row q queue = Some (its, queue') ->
    forall it, In it its -> it_row it = row.
Proof.
  induction fuel as [|fuel IH]; intros q queue its queue' Hrun;
    [discriminate|].
  simpl in Hrun. destruct queue as [|lot rest].
  { injection Hrun as <- <-. intros it []. }
  destruct (Qlt_bool 0 q).
  - destruct (close_loop fuel row _ _) as [[its' q']|] eqn:Hrec;
      [|discriminate].
    injection Hrun as <- <-. intros it [<-|Hin]; [reflexivity|].
    eapply IH; eauto.
  - injection Hrun as <- <-. intros it [].
Qed.

Lemma group_loop_rows :
  forall rest_rows queue it,
    In it (group_loop rest_rows queue) ->
    In (it_row it) rest_rows /\ Action (it_row it) = "CLOSE"%string.
Proof.
  induction rest_rows as [|row rest_rows IH]; intros queue it; simpl;
    [tauto|].
  destruct (String.eqb (Action row) "OPEN").
  { intro H. apply IH in H. tauto. }
  destruct (String.eqb_spec (Action row) "CLOSE") as [Hc|_];
    [|intro H; apply IH in H; tauto].
  destruct (match_close_fuel row queue) as [fuel Hfuel].
  destruct (match_close row queue) as [its queue'].
  intro H. apply in_app_or in H as [H|H].
  - rewrite (close_loop_rows _ _ _ _ _ _ Hfuel it H). tauto.
  - apply IH in H. tauto.
Qed.

Lemma classified_trades_In (df : DataFrame) (f : Fill) :
  In f (classified_trades df) ->
  exists c it,
    In it (batch_trace df c)
    /\ f = classified_trade (funding_rows (sort_values df)) c
             (batch_group df c) it.
Proof.
  unfold classified_trades. rewrite in_flat_map. intros (c & _ & Hf).
  unfold contract_fills in Hf. apply in_map_iff in Hf as (it & <- & Hit).
  now exists c, it.
Qed.

(** A fill carries the contract and the time of a CLOSE trade row. *)
Lemma fill_close_row (df : DataFrame) (f : Fill) :
  In f (classified_trades df) ->
  exists row,
    In row df /\ Action row = "CLOSE"%string /\ Type_ row = "TRADE"%string
    /\ Contract row = f_contract f /\ Time row = f_close_time f.
Proof.
  intro Hf. apply classified_trades_In in Hf as (c & it & Hit & ->).
  apply group_loop_rows in Hit as [Hrow Hclose].
  apply batch_group_In in Hrow as (Hin & Hc & Ht & _).
  exists (it_row it). simpl. tauto.
Qed.

Lemma insert_key_In (x k : Z) (l : list Z) :
  In k (insert_key x l) <-> k = x \/ In k l.
Proof.
  induction l as [|y l IH]; simpl; [intuition|].
  destruct (Z.ltb_spec x y); [simpl; intuition|].
  destruct (Z.eqb_spec x y) as [->|Hne]; simpl; [intuition|].
  rewrite IH. intuition.
Qed.

Lemma group_keys_In (l : list Z) (k : Z) : In k (group_keys l) <-> In k l.
Proof.
  induction l as [|x l IH]; simpl; [tauto|].
  rewrite insert_key_In, IH. intuition.
Qed.

Lemma insert_key_sorted (x : Z) (l : list Z) :
  StronglySorted Z.lt l -> StronglySorted Z.lt (insert_key x l).
Proof.
  induction l as [|y l IH]; simpl; intro Hs.
  - constructor; constructor.
  - inversion Hs as [|? ? Hs' Hall]; subst.
    destruct (Z.ltb_spec x y) as [Hlt|Hge].
    + constructor; [exact Hs|]. constructor; [exact Hlt|].
      eapply Forall_impl; [|exact Hall]. intros; lia.
    + destruct (Z.eqb_spec x y) as [->|Hne]; [exact Hs|].
      constructor; [now apply IH|]. apply Forall_forall. intros k Hk.
      apply insert_key_In in Hk as [->|Hk]; [lia|].
      rewrite Forall_forall in Hall. now apply Hall.
Qed.

Lemma group_keys_NoDup (l : list Z) : NoDup (group_keys l).
Proof.
  assert (Hs : StronglySorted Z.lt (group_keys l)).
  { induction l as [|x l IH]; simpl; [constructor|].
    now apply insert_key_sorted. }
  induction Hs as [|k ks Hs IH Hall]; constructor; [|exact IH].
  intro Hin. rewrite Forall_forall in Hall. specialize (Hall _ Hin). lia.
Qed.

Lemma number_trades_aggs th (l : list Agg) :
  forall i cp cf, map t_agg (number_trades th i cp cf l) = l.
Proof.
  induction l as [|a l IH]; intros i cp cf; simpl; [reflexivity|].
  now rewrite IH.
Qed.

Lemma grouped_trades_perm (fills : list Fill) :
  Permutation (map (agg_group fills) (group_keys (map f_close_time fills)))
              (grouped_trades fills).
Proof. apply sort_by_perm. Qed.

Lemma close_group_not_nil (fills : list Fill) (k : Z) :
  In k (map f_close_time fills) -> close_group fills k <> [].
Proof.
  intros Hin Hnil. apply in_map_iff in Hin as (f & Hk & Hf).
  assert (H : In f (close_group fills k)).
  { apply filter_In. split; [exact Hf|]. now apply Z.eqb_eq. }
  rewrite Hnil in H. destruct H.
Qed.

(** C1, as amended: the fills merged into one trade are those that share
    its close timestamp, whatever their contracts: the trades have distinct
    close times, every fill falls under the trade of its close time, and a
    trade is the aggregate of all the fills with its close time, labelled
    with the contract of the first of them.  When no two CLOSE rows of
    different contracts share a timestamp, all the fills of a trade have
    the contract of the trade. *)
Theorem trades_merge_by_close_time
    (df : DataFrame) (threshold_hours : Z) (r : ContractResult) :
  analyze_contract_trades df threshold_hours = success r ->
  NoDup (map (fun t => a_close_time (t_agg t)) (c_trades r))
  /\ (forall f, In f (classified_trades df) ->
        exists t, In t (c_trades r)
                  /\ a_close_time (t_agg t) = f_close_time f)
  /\ (forall t, In t (c_trades r) ->
        let members :=
          close_group (classified_trades df) (a_close_time (t_agg t)) in
        members <> []
        /\ t_agg t = agg_group (classified_trades df) (a_close_time (t_agg t))
        /\ a_contract (t_agg t) = first_contract members
        /\ a_quantity (t_agg t) = Qsum (map f_quantity members)
        /\ a_pnl (t_agg t) = Qsum (map f_pnl members)
        /\ (closes_apart df ->
            forall f, In f members -> f_contract f = a_contract (t_agg t))).
Proof.
  intro Hok. apply contract_success_trades in Hok as (_ & _ & Htr).
  set (fills := classified_trades df) in *.
  pose proof (grouped_trades_perm fills) as Hperm.
  assert (Haggs : map t_agg (c_trades r) = grouped_trades fills)
    by (rewrite Htr; apply number_trades_aggs).
  assert (Hagg : forall t, In t (c_trades r) ->
            exists k, In k (map f_close_time fills)
                      /\ t_agg t = agg_group fills k).
  { intros t Ht. apply (in_map t_agg) in Ht. rewrite Haggs in Ht.
    apply (Permutation_in _ (Permutation_sym Hperm)) in Ht.
    apply in_map_iff in Ht as (k & Hk & Hin).
    apply (proj1 (group_keys_In _ _)) in Hin. exists k. split; [exact Hin|now symmetry]. }
  split; [|split].
  - rewrite <- (map_map t_agg a_close_time), Haggs.
    eapply Permutation_NoDup; [apply Permutation_map, Hperm|].
    rewrite map_map. simpl. rewrite map_id. apply group_keys_NoDup.
  - intros f Hf.
    assert (Hk : In (agg_group fills (f_close_time f)) (map t_agg (c_trades r))).
    { rewrite Haggs. apply (Permutation_in _ Hperm). apply in_map.
      apply (proj2 (group_keys_In _ _)). now apply in_map. }
    apply in_map_iff in Hk as (t & Ht & Hin). exists t. split; [exact Hin|].
    now rewrite Ht.
  - intros t Ht members. destruct (Hagg t Ht) as (k & Hk & Heq).
    assert (Hkt : a_close_time (t_agg t) = k) by (now rewrite Heq).
    subst members. rewrite Hkt.
    split; [now apply close_group_not_nil|]. split; [exact Heq|].
    rewrite Heq. simpl. repeat (split; [reflexivity|]).
    intros Hapart f Hf.
    destruct (close_group fills k) as [|f0 g] eqn:Eg; [destruct Hf|].
    simpl.
    assert (Hf0 : In f0 (close_group fills k)) by (rewrite Eg; now left).
    rewrite <- Eg in Hf.
    apply filter_In in Hf as [Hf Hfk]. apply filter_In in Hf0 as [Hf0 Hf0k].
    apply Z.eqb_eq in Hfk, Hf0k.
    destruct (fill_close_row df f Hf) as (r1 & H1 & Ha1 & Ht1 & Hc1 & Hk1).
    destruct (fill_close_row df f0 Hf0) as (r2 & H2 & Ha2 & Ht2 & Hc2 & Hk2).
    rewrite <- Hc1, <- Hc2. apply Hapart; try assumption. congruence.
Qed.

Lemma trades_merge_by_close_time_witness :
  exists r,
    analyze_contract_trades two_halves_batch 24 = success r
    /\ NoDup (map (fun t => a_close_time (t_agg t)) (c_trades r))
    /\ (forall f, In f (classified_trades two_halves_batch) ->
          exists t, In t (c_trades r)
                    /\ a_close_time (t_agg t) = f_close_time f)
    /\ (forall t, In t (c_trades r) ->
          let members :=
            close_group (classified_trades two_halves_batch)
                        (a_close_time (t_agg t)) in
          members <> []
          /\ t_agg t = agg_group (classified_trades two_halves_batch)
                                 (a_close_time (t_agg t))
          /\ a_contract (t_agg t) = first_contract members
          /\ a_quantity (t_agg t) = Qsum (map f_quantity members)
          /\ a_pnl (t_agg t) = Qsum (map f_pnl members)
          /\ (closes_apart two_halves_batch ->
              forall f, In f members -> f_contract f = a_contract (t_agg t))).
Proof.
  destruct (analyze_contract_trades two_halves_batch 24) as [e|r] eqn:E;
    [vm_compute in E; discriminate|].
  exists r. split; [reflexivity|].
  exact (trades_merge_by_close_time two_halves_batch 24 r E).
Defined.

(** Two contracts closed at the same second: one trade, labelled BTCUSDT,
    that sums the profit of a BTCUSDT fill and of an ETHUSDT fill. *)
Lemma trade_merges_two_contracts :
  map (fun t => (a_close_time (t_agg t), a_contract (t_agg t),
                 Qred (a_pnl (t_agg t)), Qred (a_quantity (t_agg t))))
      (trades_of (analyze_contract_trades two_contracts_batch 24))
  = [(100%Z, "BTCUSDT"%string, 10, 2)]
  /\ map (fun f => (f_contract f, Qred (f_pnl f)))
         (close_group (classified_trades two_contracts_batch) 100)
     = [("BTCUSDT"%string, 3); ("ETHUSDT"%string, 7)]
  /\ ~ (forall f, In f (close_group (classified_trades two_contracts_batch) 100)
          -> f_contract f = "BTCUSDT"%string).
Proof.
  split; [reflexivity|]. split; [reflexivity|].
  intro H.
  assert (Hin : In "ETHUSDT"%string
            (map f_contract
               (close_group (classified_trades two_contracts_batch) 100)))
    by (vm_compute; tauto).
  apply in_map_iff in Hin as (f & Hc & Hf). apply H in Hf.
  rewrite Hf in Hc. discriminate.
Qed.

(** ** Funding of a single lot *)











(** * Further properties of the engines *)

(** ** What every match satisfies *)

Lemma close_loop_positive (row : Row) :
  forall fuel q queue its queue',
    close_loop fuel row q queue = Some (its, queue') ->
    forall it, In it its -> 0 < it_qty_to_close it.
Proof.
  induction fuel as [|fuel IH]; intros q queue its queue' Hrun;
    [discriminate|].
  simpl in Hrun. destruct queue as [|lot rest].
  { injection Hrun as <- <-. intros it []. }
  destruct (Qlt_bool 0 q) eqn:Hq.
  - destruct (close_loop fuel row _ _) as [[its' q']|] eqn:Hrec;
      [|discriminate].
    injection Hrun as <- <-. intros it [<-|Hin].
    + now apply Qlt_bool_iff.
    + eapply IH; eauto.
  - injection Hrun as <- <-. intros it [].
Qed.

Lemma group_loop_positive :
  forall rest_rows queue it,
    In it (group_loop rest_rows queue) -> 0 < it_qty_to_close it.
Proof.
  induction rest_rows as [|row rest_rows IH]; intros queue it; simpl;
    [tauto|].
  destruct (String.eqb (Action row) "OPEN"); [apply IH|].
  destruct (String.eqb (Action row) "CLOSE"); [|apply IH].
  destruct (match_close_fuel row queue) as [fuel Hfuel].
  destruct (match_close row queue) as [its queue'].
  intro H. apply in_app_or in H as [H|H]; [|now apply IH in H].
  eapply close_loop_positive; eauto.
Qed.

(** X1: a match is entered with a positive remaining close quantity; it
    takes at most that quantity and at most the lot; the share of the open
    fee it is charged lies between 0 and 1, and a lot with a positive
    remainder gives a positive match. *)
Theorem match_within_bounds (df : DataFrame) (contract : string) (it : Iter) :
  In it (batch_trace df contract) ->
  0 < it_qty_to_close it
  /\ matched_qty it <= it_qty_to_close it
  /\ matched_qty it <= Quantity (it_open_pos it)
  /\ 0 <= open_fee_ratio it <= 1
  /\ (0 < Quantity (it_open_pos it) -> 0 < matched_qty it).
Proof.
  intro Hin. apply group_loop_positive in Hin.
  assert (Hl : matched_qty it <= it_qty_to_close it) by apply Q.le_min_l.
  assert (Hr : matched_qty it <= Quantity (it_open_pos it))
    by apply Q.le_min_r.
  assert (Hpos : 0 < Quantity (it_open_pos it) -> 0 < matched_qty it).
  { intro HR. unfold matched_qty.
    destruct (Q.min_spec (it_qty_to_close it) (Quantity (it_open_pos it)))
      as [[_ Hm]|[_ Hm]]; rewrite Hm; assumption. }
  repeat (split; [assumption|]). split; [|exact Hpos].
  unfold open_fee_ratio.
  destruct (Qlt_bool 0 (Quantity (it_open_pos it))) eqn:E; [|split; lra].
  apply Qlt_bool_iff in E. specialize (Hpos E). split.
  - apply Qle_shift_div_l; [exact E|]. lra.
  - apply Qle_shift_div_r; [exact E|]. lra.
Qed.

Lemma match_within_bounds_witness :
  let it := mkIter (CLOSE_row 2 20 "BTCUSDT" 5 0 0) 5
                   (OPEN_row 0 0 "BTCUSDT" 5 2) in
  In it (batch_trace two_halves_batch "BTCUSDT")
  /\ 0 < it_qty_to_close it
  /\ matched_qty it <= it_qty_to_close it
  /\ matched_qty it <= Quantity (it_open_pos it)
  /\ 0 <= open_fee_ratio it <= 1
  /\ (0 < Quantity (it_open_pos it) -> 0 < matched_qty it).
Proof.
  intro it.
  assert (Hin : In it (batch_trace two_halves_batch "BTCUSDT"))
    by (right; left; reflexivity).
  split; [exact Hin|].
  exact (match_within_bounds two_halves_batch "BTCUSDT" it Hin).
Defined.

(** ** First in, first out *)

Lemma sorted_app (l1 l2 : list Z) :
  StronglySorted Z.le (l1 ++ l2)
  <-> StronglySorted Z.le l1 /\ StronglySorted Z.le l2
      /\ forall x y, In x l1 -> In y l2 -> (x <= y)%Z.
Proof.
  induction l1 as [|a l1 IH]; simpl.
  - split; [intro H; repeat split; [constructor|exact H|tauto]|tauto].
  - split.
    + intro H. inversion H as [|? ? Hs Hall]; subst.
      apply IH in Hs as (H1 & H2 & H3). rewrite Forall_forall in Hall.
      split; [|split; [exact H2|]].
      * constructor; [exact H1|]. apply Forall_forall. intros x Hx.
        apply Hall, in_or_app. now left.
      * intros x y [<-|Hx] Hy; [|now apply H3].
        apply Hall, in_or_app. now right.
    + intros (H1 & H2 & H3). inversion H1 as [|? ? Hs Hall]; subst.
      constructor.
      * apply IH. repeat split; try assumption.
        intros x y Hx Hy. apply H3; [now right|exact Hy].
      * apply Forall_forall. intros x Hx. apply in_app_or in Hx as [Hx|Hx].
        -- rewrite Forall_forall in Hall. now apply Hall.
        -- apply H3; [now left|exact Hx].
Qed.

(** The lots that one loop matches, followed by the lots it leaves, are in
    the time order of the queue it started from. *)
Lemma close_loop_fifo (row : Row) :
  forall fuel q queue its queue',
    close_loop fuel row q queue = Some (its, queue') ->
    StronglySorted Z.le (map Time queue) ->
    StronglySorted Z.le (map open_time its ++ map Time queue')
    /\ incl (map open_time its ++ map Time queue') (map Time queue).
Proof.
  induction fuel as [|fuel IH]; intros q queue its queue' Hrun Hs;
    [discriminate|].
  simpl in Hrun. destruct queue as [|lot rest].
  { injection Hrun as <- <-. split; [constructor|apply incl_refl]. }
  destruct (Qlt_bool 0 q); cycle 1.
  { injection Hrun as <- <-. split; [exact Hs|apply incl_refl]. }
  set (it := mkIter row q lot) in *.
  destruct (close_loop fuel row _ _) as [[its' q']|] eqn:Hrec; [|discriminate].
  injection Hrun as <- <-.
  assert (Htimes : incl (map Time (decrement_head it rest))
                        (map Time (lot :: rest))
                   /\ StronglySorted Z.le (map Time (decrement_head it rest))).
  { destruct (decrement_head_cases it rest) as [[_ Hd]|[_ [_ Hd]]];
      rewrite Hd.
    - split; [apply incl_tl, incl_refl|]. simpl in Hs. now inversion Hs.
    - split; [apply incl_refl|exact Hs]. }
  destruct Htimes as [Hincl Hs'].
  destruct (IH _ _ _ _ Hrec Hs') as [Hsorted Hin].
  assert (Hin' : incl (map open_time its' ++ map Time q')
                      (map Time (lot :: rest)))
    by (eapply incl_tran; eauto).
  split.
  - simpl. constructor; [exact Hsorted|]. apply Forall_forall.
    intros t Ht. apply Hin' in Ht. simpl in Hs. inversion Hs as [|? ? _ Hall].
    subst. destruct Ht as [<-|Ht]; [apply Z.le_refl|].
    rewrite Forall_forall in Hall. now apply Hall.
  - simpl. intros t [<-|Ht]; [now left|now apply Hin'].
Qed.

Lemma group_loop_fifo :
  forall rest_rows queue,
    StronglySorted Z.le (map Time queue ++ map Time rest_rows) ->
    StronglySorted Z.le (map open_time (group_loop rest_rows queue))
    /\ incl (map open_time (group_loop rest_rows queue))
            (map Time queue ++ map Time rest_rows)
    /\ forall it, In it (group_loop rest_rows queue) ->
         (open_time it <= Time (it_row it))%Z.
Proof.
  induction rest_rows as [|row rest_rows IH]; intros queue Hs.
  { simpl. split; [constructor|]. split; [intros x []|intros it []]. }
  simpl.
  assert (Hmove : map Time queue ++ map Time (row :: rest_rows)
                  = map Time (queue ++ [row]) ++ map Time rest_rows)
    by (rewrite map_app, <- app_assoc; reflexivity).
  destruct (String.eqb (Action row) "OPEN").
  { rewrite Hmove in Hs. destruct (IH (queue ++ [row]) Hs) as (H1 & H2 & H3).
    split; [exact H1|]. split; [|exact H3].
    change (map Time queue ++ Time row :: map Time rest_rows)
      with (map Time queue ++ map Time (row :: rest_rows)).
    rewrite Hmove. exact H2. }
  assert (Hskip : StronglySorted Z.le (map Time queue ++ map Time rest_rows)).
  { apply sorted_app in Hs as (H1 & H2 & H3). apply sorted_app.
    simpl in H2. inversion H2; subst. repeat split; try assumption.
    intros x y Hx Hy. apply H3; [exact Hx|now right]. }
  destruct (String.eqb (Action row) "CLOSE"); cycle 1.
  { destruct (IH queue Hskip) as (H1 & H2 & H3).
    split; [exact H1|]. split; [|exact H3].
    intros t Ht. apply H2 in Ht. apply in_or_app.
    apply in_app_or in Ht as [Ht|Ht]; [now left|right; now right]. }
  destruct (match_close_fuel row queue) as [fuel Hfuel].
  destruct (match_close row queue) as [its queue'].
  apply sorted_app in Hs as (Hq & Hr & Hqr).
  destruct (close_loop_fifo _ _ _ _ _ _ Hfuel Hq) as [Hsorted Hincl].
  apply sorted_app in Hsorted as (Hits & Hq' & Hiq).
  assert (Hits_q : incl (map open_time its) (map Time queue))
    by (intros t Ht; apply Hincl, in_or_app; now left).
  assert (Hq'_q : incl (map Time queue') (map Time queue))
    by (intros t Ht; apply Hincl, in_or_app; now right).
  assert (Hnext : StronglySorted Z.le (map Time queue' ++ map Time rest_rows)).
  { apply sorted_app. split; [exact Hq'|]. simpl in Hr. inversion Hr; subst.
    split; [assumption|]. intros x y Hx Hy.
    apply Hqr; [now apply Hq'_q|now right]. }
  destruct (IH queue' Hnext) as (H1 & H2 & H3).
  rewrite map_app. split; [|split].
  - apply sorted_app. repeat split; try assumption.
    intros x y Hx Hy. apply H2 in Hy. apply in_app_or in Hy as [Hy|Hy].
    + now apply Hiq.
    + apply Hqr; [now apply Hits_q|now right].
  - intros t Ht. apply in_or_app. apply in_app_or in Ht as [Ht|Ht].
    + left. now apply Hits_q.
    + apply H2 in Ht. apply in_app_or in Ht as [Ht|Ht];
        [left; now apply Hq'_q|right; now right].
  - intros it Hit. apply in_app_or in Hit as [Hit|Hit]; [|now apply H3].
    rewrite (close_loop_rows _ _ _ _ _ _ Hfuel it Hit).
    apply Hqr; [|now left]. apply Hits_q.
    now apply (in_map open_time).
Qed.

Lemma batch_group_times_sorted (df : DataFrame) (c : string) :
  StronglySorted Z.le (map Time (batch_group df c)).
Proof.
  pose proof (batch_group_sorted df c) as H.
  induction H as [|r l Hs IH Hall]; simpl; constructor; [exact IH|].
  apply Forall_forall. intros t Ht. apply in_map_iff in Ht as (x & <- & Hx).
  rewrite Forall_forall in Hall. now apply Hall.
Qed.

(** X2: first in, first out: within a contract, a match never takes a lot
    that was opened before the lot of an earlier match. *)
Theorem lots_matched_in_open_order
    (df : DataFrame) (contract : string) (pre post : list Iter) (j it : Iter) :
  batch_trace df contract = pre ++ it :: post ->
  In j pre ->
  (Time (it_open_pos j) <= Time (it_open_pos it))%Z.
Proof.
  intros Htr Hj.
  destruct (group_loop_fifo (batch_group df contract) [])
    as (Hsorted & _ & _); [apply batch_group_times_sorted|].
  fold (batch_trace df contract) in Hsorted. rewrite Htr, map_app in Hsorted.
  apply sorted_app in Hsorted as (_ & _ & H).
  apply (H (open_time j) (open_time it)); [now apply in_map|now left].
Qed.

Lemma lots_matched_in_open_order_witness :
  let j := mkIter (CLOSE_row 2 10 "BTCUSDT" 7 0 0) 7
                  (OPEN_row 0 0 "BTCUSDT" 5 0) in
  let it := mkIter (CLOSE_row 2 10 "BTCUSDT" 7 0 0) 2
                   (OPEN_row 1 1 "BTCUSDT" 5 0) in
  batch_trace two_lots_batch "BTCUSDT" = [j] ++ it :: []
  /\ In j [j]
  /\ (Time (it_open_pos j) <= Time (it_open_pos it))%Z.
Proof.
  intros j it.
  assert (Htr : batch_trace two_lots_batch "BTCUSDT" = [j] ++ it :: [])
    by reflexivity.
  assert (Hj : In j [j]) by (now left).
  split; [exact Htr|]. split; [exact Hj|].
  exact (lots_matched_in_open_order two_lots_batch "BTCUSDT" [j] [] j it
           Htr Hj).
Defined.

(** X3: no fill closes before it opens: the open time of a fill is at most
    its close time, and its holding period is not negative. *)
Theorem fill_opens_before_it_closes (df : DataFrame) (f : Fill) :
  In f (classified_trades df) ->
  (f_open_time f <= f_close_time f)%Z
  /\ 0 <= f_holding_period_seconds f
  /\ f_holding_period_seconds f
     == inject_Z (f_close_time f) - inject_Z (f_open_time f).
Proof.
  intro Hf. apply classified_trades_In in Hf as (c & it & Hit & ->).
  destruct (group_loop_fifo (batch_group df c) [])
    as (_ & _ & Hle); [apply batch_group_times_sorted|].
  specialize (Hle it Hit). unfold open_time in Hle. simpl.
  split; [exact Hle|]. unfold holding_period. split.
  - change 0 with (inject_Z 0). rewrite <- Zle_Qle. lia.
  - unfold Z.sub. rewrite inject_Z_plus, inject_Z_opp. reflexivity.
Qed.

Lemma fill_opens_before_it_closes_witness :
  exists f,
    In f (classified_trades two_halves_batch)
    /\ (f_open_time f <= f_close_time f)%Z
    /\ 0 <= f_holding_period_seconds f
    /\ f_holding_period_seconds f
       == inject_Z (f_close_time f) - inject_Z (f_open_time f).
Proof.
  destruct (classified_trades two_halves_batch) as [|f l] eqn:E;
    [vm_compute in E; discriminate|].
  exists f.
  assert (Hin : In f (classified_trades two_halves_batch))
    by (rewrite E; now left).
  rewrite <- E. split; [exact Hin|].
  exact (fill_opens_before_it_closes two_halves_batch f Hin).
Defined.

(** ** Conservation at a CLOSE row *)










(** ** The aggregated trades and the KPIs *)

Lemma group_keys_sorted (l : list Z) : StronglySorted Z.lt (group_keys l).
Proof.
  induction l as [|x l IH]; simpl; [constructor|].
  now apply insert_key_sorted.
Qed.

(** The sort of line 305 finds the groups already in order. *)
Lemma grouped_trades_eq (fills : list Fill) :
  grouped_trades fills
  = map (agg_group fills) (group_keys (map f_close_time fills)).
Proof.
  unfold grouped_trades. apply sort_by_id.
  pose proof (group_keys_sorted (map f_close_time fills)) as Hs.
  induction Hs as [|k ks Hs IH Hall]; simpl; constructor; [exact IH|].
  apply Forall_forall. intros a Ha. apply in_map_iff in Ha as (k' & <- & Hk).
  rewrite Forall_forall in Hall. specialize (Hall _ Hk).
  unfold key_le. simpl. lia.
Qed.

Lemma fold_min_le (l : list Z) :
  forall a, (fold_left Z.min l a <= a)%Z
            /\ (forall x, In x l -> (fold_left Z.min l a <= x)%Z)
            /\ In (fold_left Z.min l a) (a :: l).
Proof.
  induction l as [|y l IH]; intro a; simpl.
  - split; [lia|]. split; [tauto|now left].
  - destruct (IH (Z.min a y)) as (H1 & H2 & H3). split; [lia|]. split.
    + intros x [<-|Hx]; [lia|now apply H2].
    + destruct H3 as [H3|H3]; [|right; now right].
      destruct (Z.min_spec a y) as [[_ E]|[_ E]];
        [left|right; left]; congruence.
Qed.




Lemma success_aggs (df : DataFrame) (th : Z) (r : ContractResult) :
  analyze_contract_trades df th = success r ->
  map t_agg (c_trades r)
  = map (agg_group (classified_trades df))
        (group_keys (map f_close_time (classified_trades df))).
Proof.
  intro H. apply contract_success_trades in H as (_ & _ & ->).
  now rewrite number_trades_aggs, grouped_trades_eq.
Qed.




Lemma prefix_sums_last (l : list Q) :
  forall acc d, last (acc :: prefix_sums acc l) d == acc + Qsum l.
Proof.
  induction l as [|x l IH]; intros acc d.
  - simpl. lra.
  - change (last (acc :: prefix_sums acc (x :: l)) d)
      with (last ((acc + x) :: prefix_sums (acc + x) l) d).
    rewrite IH. simpl. lra.
Qed.

Lemma number_trades_running th (l : list Agg) :
  forall i cp cf,
    map t_cumulative_pnl (number_trades th i cp cf l)
    = prefix_sums cp (map a_pnl l)
    /\ map t_cumulative_fees (number_trades th i cp cf l)
       = prefix_sums cf (map a_trade_fees l)
    /\ map t_id (number_trades th i cp cf l) = seq (S i) (List.length l).
Proof.
  induction l as [|a l IH]; intros i cp cf; simpl; [tauto|].
  destruct (IH (S i) (cp + a_pnl a) (cf + a_trade_fees a)) as (H1 & H2 & H3).
  rewrite H1, H2, H3, Nat.add_1_r. tauto.
Qed.

Lemma success_payload (df : DataFrame) (th : Z) (r : ContractResult) :
  analyze_contract_trades df th = success r ->
  c_chart_labels r
  = min_time (sort_values df)
    :: map (fun t => a_close_time (t_agg t)) (c_trades r)
  /\ c_chart_data r = 0 :: map t_cumulative_pnl (c_trades r)
  /\ k_totalPnl (c_kpi r) = Qsum (map (fun t => a_pnl (t_agg t)) (c_trades r))
  /\ k_tradeCount (c_kpi r) = List.length (c_trades r)
  /\ k_dayTradePnl (c_kpi r)
     = Qsum (map (fun t => a_pnl (t_agg t))
                 (filter (is_type DAY_TRADE) (c_trades r)))
  /\ k_swingTradePnl (c_kpi r)
     = Qsum (map (fun t => a_pnl (t_agg t))
                 (filter (is_type SWING) (c_trades r))).
Proof.
  unfold analyze_contract_trades. destruct df as [|row df]; [discriminate|].
  destruct (classified_trades (row :: df)); [discriminate|].
  intro H. injection H as <-. simpl. tauto.
Qed.



(** X9: the running totals of the trades are the prefix sums of their
    profits and of their trade fees, the chart data are 0 followed by the
    cumulative profits, and the last chart point is the total PnL. *)
Theorem running_totals_are_prefix_sums
    (df : DataFrame) (threshold_hours : Z) (r : ContractResult) :
  analyze_contract_trades df threshold_hours = success r ->
  map t_cumulative_pnl (c_trades r)
  = prefix_sums 0 (map (fun t => a_pnl (t_agg t)) (c_trades r))
  /\ map t_cumulative_fees (c_trades r)
     = prefix_sums 0 (map (fun t => a_trade_fees (t_agg t)) (c_trades r))
  /\ c_chart_data r = 0 :: map t_cumulative_pnl (c_trades r)
  /\ last (c_chart_data r) 0 == k_totalPnl (c_kpi r).
Proof.
  intro Hok.
  destruct (success_payload _ _ _ Hok) as (_ & Hdata & Ht & _).
  destruct (contract_success_trades _ _ _ Hok) as (_ & _ & Htr).
  destruct (number_trades_running threshold_hours
              (grouped_trades (classified_trades df)) 0 0 0)
    as (H1 & H2 & _).
  rewrite <- Htr in H1, H2.
  assert (Ha : forall col : Agg -> Q,
            map col (grouped_trades (classified_trades df))
            = map (fun t => col (t_agg t)) (c_trades r)).
  { intro col. rewrite <- (map_map t_agg col), Htr, number_trades_aggs.
    reflexivity. }
  rewrite (Ha a_pnl) in H1. rewrite (Ha a_trade_fees) in H2.
  split; [exact H1|]. split; [exact H2|]. split; [exact Hdata|].
  rewrite Hdata, H1, Ht, prefix_sums_last. lra.
Qed.

Lemma running_totals_are_prefix_sums_witness :
  exists r,
    analyze_contract_trades two_halves_batch 24 = success r
    /\ map t_cumulative_pnl (c_trades r)
       = prefix_sums 0 (map (fun t => a_pnl (t_agg t)) (c_trades r))
    /\ map t_cumulative_fees (c_trades r)
       = prefix_sums 0 (map (fun t => a_trade_fees (t_agg t)) (c_trades r))
    /\ c_chart_data r = 0 :: map t_cumulative_pnl (c_trades r)
    /\ last (c_chart_data r) 0 == k_totalPnl (c_kpi r).
Proof.
  destruct (analyze_contract_trades two_halves_batch 24) as [e|r] eqn:E;
    [vm_compute in E; discriminate|].
  exists r. split; [reflexivity|].
  exact (running_totals_are_prefix_sums two_halves_batch 24 r E).
Defined.

(** X10: the trades of a successful analysis carry the identifiers 1, 2,
    ... in order and strictly increasing close times; the chart has one
    label and one point per trade after a first point, and its first label
    is the earliest time of the batch, not later than any row. *)
Theorem trades_are_numbered_in_close_order
    (df : DataFrame) (threshold_hours : Z) (r : ContractResult) :
  analyze_contract_trades df threshold_hours = success r ->
  map t_id (c_trades r) = seq 1 (List.length (c_trades r))
  /\ StronglySorted Z.lt (map (fun t => a_close_time (t_agg t)) (c_trades r))
  /\ List.length (c_chart_labels r) = S (List.length (c_trades r))
  /\ List.length (c_chart_data r) = S (List.length (c_trades r))
  /\ (forall row, In row df -> (hd 0%Z (c_chart_labels r) <= Time row)%Z)
  /\ In (hd 0%Z (c_chart_labels r)) (map Time df).
Proof.
  intro Hok.
  destruct (success_payload _ _ _ Hok) as (Hlab & Hdata & _).
  destruct (contract_success_trades _ _ _ Hok) as (Hdf & _ & Htr).
  destruct (number_trades_running threshold_hours
              (grouped_trades (classified_trades df)) 0 0 0)
    as (_ & _ & Hid).
  rewrite <- Htr in Hid.
  assert (Hlen : List.length (grouped_trades (classified_trades df))
                 = List.length (c_trades r)).
  { rewrite Htr. symmetry. apply number_trades_length. }
  rewrite Hlen in Hid. split; [exact Hid|]. split.
  { rewrite <- (map_map t_agg a_close_time), (success_aggs _ _ _ Hok).
    rewrite map_map. simpl. rewrite map_id. apply group_keys_sorted. }
  rewrite Hlab, Hdata. simpl. rewrite !length_map.
  split; [reflexivity|]. split; [reflexivity|].
  assert (Hmin : forall l : DataFrame, l <> [] ->
            (forall row, In row l -> (min_time l <= Time row)%Z)
            /\ In (min_time l) (map Time l)).
  { intros [|x l] Hne; [congruence|]. simpl.
    destruct (fold_min_le (map Time l) (Time x)) as (H1 & H2 & H3).
    split; [|exact H3]. intros row [<-|Hrow]; [exact H1|].
    apply H2. now apply in_map. }
  assert (Hs : sort_values df <> []).
  { intro E. apply Hdf. pose proof (sort_by_perm Time df) as Hp.
    unfold sort_values in E. rewrite E in Hp.
    now apply Permutation_sym, Permutation_nil in Hp. }
  destruct (Hmin _ Hs) as [H1 H2]. split.
  - intros row Hrow. apply H1. now apply sort_by_In.
  - apply in_map_iff in H2 as (x & Hx & Hin). rewrite <- Hx.
    apply in_map. now apply sort_by_In in Hin.
Qed.

Lemma trades_are_numbered_in_close_order_witness :
  exists r,
    analyze_contract_trades two_halves_batch 24 = success r
    /\ map t_id (c_trades r) = seq 1 (List.length (c_trades r))
    /\ StronglySorted Z.lt
         (map (fun t => a_close_time (t_agg t)) (c_trades r))
    /\ List.length (c_chart_labels r) = S (List.length (c_trades r))
    /\ List.length (c_chart_data r) = S (List.length (c_trades r))
    /\ (forall row, In row two_halves_batch ->
          (hd 0%Z (c_chart_labels r) <= Time row)%Z)
    /\ In (hd 0%Z (c_chart_labels r)) (map Time two_halves_batch).
Proof.
  destruct (analyze_contract_trades two_halves_batch 24) as [e|r] eqn:E;
    [vm_compute in E; discriminate|].
  exists r. split; [reflexivity|].
  exact (trades_are_numbered_in_close_order two_halves_batch 24 r E).
Defined.

Lemma trade_is_group (df : DataFrame) (th : Z) (r : ContractResult) (t : Trade) :
  analyze_contract_trades df th = success r ->
  In t (c_trades r) ->
  t_agg t = agg_group (classified_trades df) (a_close_time (t_agg t))
  /\ close_group (classified_trades df) (a_close_time (t_agg t)) <> []
  /\ t_type t = classify th (a_holding_period_seconds (t_agg t)).
Proof.
  intros Hok Ht. pose proof (success_aggs _ _ _ Hok) as Haggs.
  destruct (contract_success_trades _ _ _ Hok) as (_ & _ & Htr).
  assert (Hty : t_type t = classify th (a_holding_period_seconds (t_agg t))).
  { rewrite Htr in Ht. now apply number_trades_In in Ht. }
  apply (in_map t_agg) in Ht. rewrite Haggs in Ht.
  apply in_map_iff in Ht as (k & Hk & Hin).
  apply (proj1 (group_keys_In _ _)) in Hin.
  assert (Hkt : a_close_time (t_agg t) = k) by (now rewrite <- Hk).
  rewrite Hkt. split; [now symmetry|].
  split; [now apply close_group_not_nil|exact Hty].
Qed.

Lemma fill_open_le_close (df : DataFrame) (f : Fill) :
  In f (classified_trades df) -> (f_open_time f <= f_close_time f)%Z.
Proof.
  intro Hf. apply classified_trades_In in Hf as (c & it & Hit & ->).
  destruct (group_loop_fifo (batch_group df c) [])
    as (_ & _ & Hle); [apply batch_group_times_sorted|].
  exact (Hle it Hit).
Qed.

(** X11: the open time of a trade is the earliest open time among the
    fills it merges: it is the open time of one of them, not later than
    that of any of them, and not later than the close time of the trade. *)
Theorem trade_opens_with_its_first_fill
    (df : DataFrame) (threshold_hours : Z) (r : ContractResult) (t : Trade) :
  analyze_contract_trades df threshold_hours = success r ->
  In t (c_trades r) ->
  (forall f, In f (close_group (classified_trades df) (a_close_time (t_agg t)))
     -> (a_open_time (t_agg t) <= f_open_time f)%Z)
  /\ (exists f,
        In f (close_group (classified_trades df) (a_close_time (t_agg t)))
        /\ a_open_time (t_agg t) = f_open_time f)
  /\ (a_open_time (t_agg t) <= a_close_time (t_agg t))%Z.
Proof.
  intros Hok Ht. destruct (trade_is_group _ _ _ _ Hok Ht) as (Hagg & Hne & _).
  set (k := a_close_time (t_agg t)) in *.
  set (g := close_group (classified_trades df) k) in *.
  assert (Hopen : a_open_time (t_agg t) = min_open_time g)
    by (rewrite Hagg; reflexivity).
  destruct g as [|f0 g'] eqn:Eg; [congruence|].
  simpl in Hopen.
  destruct (fold_min_le (map f_open_time g') (f_open_time f0))
    as (H1 & H2 & H3).
  rewrite <- Hopen in H1, H2, H3.
  assert (Hall : forall f, In f (f0 :: g') ->
            (a_open_time (t_agg t) <= f_open_time f)%Z).
  { intros f [<-|Hf]; [exact H1|]. apply H2. now apply in_map. }
  assert (Hex : exists f, In f (f0 :: g')
                          /\ a_open_time (t_agg t) = f_open_time f).
  { destruct H3 as [H3|H3]; [exists f0; split; [now left|congruence]|].
    apply in_map_iff in H3 as (f & Hf & Hin). exists f.
    split; [now right|congruence]. }
  split; [exact Hall|]. split; [exact Hex|].
  destruct Hex as (f & Hf & ->). rewrite <- Eg in Hf. subst g.
  apply filter_In in Hf as [Hf Hk]. apply Z.eqb_eq in Hk. rewrite <- Hk.
  now apply (fill_open_le_close df).
Qed.

Lemma trade_opens_with_its_first_fill_witness :
  exists r t,
    analyze_contract_trades two_contracts_batch 24 = success r
    /\ In t (c_trades r)
    /\ (forall f,
          In f (close_group (classified_trades two_contracts_batch)
                            (a_close_time (t_agg t)))
          -> (a_open_time (t_agg t) <= f_open_time f)%Z)
    /\ (exists f,
          In f (close_group (classified_trades two_contracts_batch)
                            (a_close_time (t_agg t)))
          /\ a_open_time (t_agg t) = f_open_time f)
    /\ (a_open_time (t_agg t) <= a_close_time (t_agg t))%Z.
Proof.
  destruct (analyze_contract_trades two_contracts_batch 24) as [e|r] eqn:E;
    [vm_compute in E; discriminate|].
  destruct (c_trades r) as [|t l] eqn:Et.
  { apply (f_equal trades_of) in E. simpl in E. rewrite Et in E.
    vm_compute in E. discriminate. }
  exists r, t.
  assert (Hin : In t (c_trades r)) by (rewrite Et; now left).
  split; [reflexivity|]. split; [exact Hin|].
  exact (trade_opens_with_its_first_fill two_contracts_batch 24 r t E Hin).
Defined.

Lemma weighted_sums (T : Q) (g : list Fill) :
  (forall f, In f g -> 0 < f_quantity f) ->
  (g <> [] -> 0 < Qsum (map f_quantity g))
  /\ ((forall f, In f g -> f_holding_period_seconds f <= T) ->
      Qsum (map (fun f => f_holding_period_seconds f * f_quantity f) g)
      <= T * Qsum (map f_quantity g))
  /\ ((forall f, In f g -> T < f_holding_period_seconds f) ->
      g <> [] ->
      T * Qsum (map f_quantity g)
      < Qsum (map (fun f => f_holding_period_seconds f * f_quantity f) g)).
Proof.
  induction g as [|f g IH]; intro Hq; simpl.
  - split; [congruence|]. split; [intros _; lra|congruence].
  - assert (Hf : 0 < f_quantity f) by (apply Hq; now left).
    destruct IH as (H1 & H2 & H3); [intros x Hx; apply Hq; now right|].
    assert (Hs : 0 <= Qsum (map f_quantity g)).
    { destruct g as [|x g']; [simpl; lra|].
      apply Qlt_le_weak, H1. discriminate. }
    split; [intros _; lra|]. split.
    + intro Hh. specialize (H2 (fun x Hx => Hh x (or_intror Hx))).
      specialize (Hh f (or_introl eq_refl)). nra.
    + intros Hh _. specialize (Hh f (or_introl eq_refl)) as Hhf.
      destruct g as [|x g']; [simpl; nra|].
      specialize (H3 (fun y Hy => Hh y (or_intror Hy))).
      assert (Hne : x :: g' <> []) by discriminate.
      specialize (H3 Hne). nra.
Qed.

(** X12: a trade that merges fills of positive quantity only is a day
    trade when every one of them was held for at most the threshold, and a
    swing trade when every one of them was held for longer. *)
Theorem uniform_fills_decide_the_type
    (df : DataFrame) (threshold_hours : Z) (r : ContractResult) (t : Trade) :
  analyze_contract_trades df threshold_hours = success r ->
  In t (c_trades r) ->
  (forall f, In f (close_group (classified_trades df) (a_close_time (t_agg t)))
     -> 0 < f_quantity f) ->
  ((forall f, In f (close_group (classified_trades df) (a_close_time (t_agg t)))
      -> f_holding_period_seconds f <= inject_Z (threshold_hours * 3600))
   -> t_type t = DAY_TRADE)
  /\ ((forall f,
         In f (close_group (classified_trades df) (a_close_time (t_agg t)))
         -> inject_Z (threshold_hours * 3600) < f_holding_period_seconds f)
      -> t_type t = SWING).
Proof.
  intros Hok Ht Hq.
  destruct (trade_is_group _ _ _ _ Hok Ht) as (Hagg & Hne & Hty).
  set (g := close_group (classified_trades df) (a_close_time (t_agg t))) in *.
  set (T := inject_Z (threshold_hours * 3600)).
  destruct (weighted_sums T g Hq) as (Hpos & Hle & Hlt).
  specialize (Hpos Hne).
  assert (Havg : a_holding_period_seconds (t_agg t)
                 = Qsum (map (fun f => f_holding_period_seconds f
                                       * f_quantity f) g)
                   / Qsum (map f_quantity g)).
  { rewrite Hagg. simpl. fold g. unfold weighted_avg.
    destruct (Qeq_bool (Qsum (map f_quantity g)) 0) eqn:E; [|reflexivity].
    apply Qeq_bool_iff in E. lra. }
  rewrite Hty, Havg. split; intro Hh.
  - apply classify_spec. apply Qle_shift_div_r; [exact Hpos|]. now apply Hle.
  - apply classify_spec. apply Qlt_shift_div_l; [exact Hpos|].
    now apply Hlt.
Qed.

Lemma uniform_fills_decide_the_type_witness :
  exists r t,
    analyze_contract_trades (held_batch 86401) 24 = success r
    /\ In t (c_trades r)
    /\ (forall f,
          In f (close_group (classified_trades (held_batch 86401))
                            (a_close_time (t_agg t)))
          -> 0 < f_quantity f)
    /\ (forall f,
          In f (close_group (classified_trades (held_batch 86401))
                            (a_close_time (t_agg t)))
          -> inject_Z (24 * 3600) < f_holding_period_seconds f)
    /\ t_type t = SWING.
Proof.
  destruct (analyze_contract_trades (held_batch 86401) 24) as [e|r] eqn:E;
    [vm_compute in E; discriminate|].
  destruct (c_trades r) as [|t l] eqn:Et.
  { apply (f_equal trades_of) in E. simpl in E. rewrite Et in E.
    vm_compute in E. discriminate. }
  assert (Hin : In t (c_trades r)) by (rewrite Et; now left).
  assert (Hk : a_close_time (t_agg t) = 86401%Z).
  { apply (f_equal trades_of) in E. simpl in E. rewrite Et in E.
    vm_compute in E. injection E as <- _. reflexivity. }
  assert (Hq : forall f,
            In f (close_group (classified_trades (held_batch 86401))
                              (a_close_time (t_agg t)))
            -> 0 < f_quantity f).
  { rewrite Hk. intros f [<-|[]]. reflexivity. }
  assert (Hh : forall f,
            In f (close_group (classified_trades (held_batch 86401))
                              (a_close_time (t_agg t)))
            -> inject_Z (24 * 3600) < f_holding_period_seconds f).
  { rewrite Hk. intros f [<-|[]]. reflexivity. }
  exists r, t. split; [reflexivity|]. split; [exact Hin|].
  split; [exact Hq|]. split; [exact Hh|].
  exact (proj2 (uniform_fills_decide_the_type (held_batch 86401) 24 r t
                  E Hin Hq) Hh).
Defined.

(** ** Where a fill comes from *)

Lemma close_loop_lots (P : Row -> Prop) (row : Row) :
  (forall lot q, P lot -> P (set_Quantity lot q)) ->
  forall fuel q queue its queue',
    close_loop fuel row q queue = Some (its, queue') ->
    Forall P queue ->
    Forall P queue' /\ forall it, In it its -> P (it_open_pos it).
Proof.
  intro Hset.
  induction fuel as [|fuel IH]; intros q queue its queue' Hrun Hq;
    [discriminate|].
  simpl in Hrun. destruct queue as [|lot rest].
  { injection Hrun as <- <-. split; [constructor|intros it []]. }
  destruct (Qlt_bool 0 q); cycle 1.
  { injection Hrun as <- <-. split; [exact Hq|intros it []]. }
  set (it := mkIter row q lot) in *.
  destruct (close_loop fuel row _ _) as [[its' q']|] eqn:Hrec; [|discriminate].
  injection Hrun as <- <-.
  inversion Hq as [|? ? Hlot Hrest]; subst.
  assert (Hstep : Forall P (decrement_head it rest)).
  { destruct (decrement_head_cases it rest) as [[_ Hd]|[_ [_ Hd]]];
      rewrite Hd; [exact Hrest|].
    constructor; [now apply Hset|exact Hrest]. }
  destruct (IH _ _ _ _ Hrec Hstep) as [H1 H2]. split; [exact H1|].
  intros j [<-|Hj]; [exact Hlot|now apply H2].
Qed.

Lemma opened_in_set (group : DataFrame) (lot : Row) (q : Q) :
  opened_in group lot -> opened_in group (set_Quantity lot q).
Proof.
  intros (o & Ho & Ha & R & ->). exists o. repeat split; try assumption.
  now exists q.
Qed.

Lemma group_loop_lots (group : DataFrame) :
  forall rest_rows queue,
    incl rest_rows group ->
    Forall (opened_in group) queue ->
    forall it, In it (group_loop rest_rows queue) ->
      opened_in group (it_open_pos it).
Proof.
  induction rest_rows as [|row rest_rows IH]; intros queue Hincl Hq it;
    simpl; [tauto|].
  assert (Hrest : incl rest_rows group)
    by (intros x Hx; apply Hincl; now right).
  destruct (String.eqb_spec (Action row) "OPEN") as [Hopen|_].
  { apply IH; [exact Hrest|]. apply Forall_app. split; [exact Hq|].
    constructor; [|constructor]. exists row.
    split; [apply Hincl; now left|]. split; [exact Hopen|].
    exists (Quantity row). apply set_Quantity_same. }
  destruct (String.eqb (Action row) "CLOSE"); [|now apply IH].
  destruct (match_close_fuel row queue) as [fuel Hfuel].
  destruct (match_close row queue) as [its queue'].
  destruct (close_loop_lots (opened_in group) row (opened_in_set group)
              _ _ _ _ _ Hfuel Hq) as [Hq' Hits].
  intro H. apply in_app_or in H as [H|H]; [now apply Hits|].
  now apply (IH queue').
Qed.

(** X13: every fill comes from an OPEN trade row and a CLOSE trade row of
    its contract in the batch: it carries the time of the first as its open
    time and the time of the second as its close time. *)
Theorem fill_has_an_open_and_a_close (df : DataFrame) (f : Fill) :
  In f (classified_trades df) ->
  exists o c,
    In o df /\ In c df
    /\ Action o = "OPEN"%string /\ Action c = "CLOSE"%string
    /\ Type_ o = "TRADE"%string /\ Type_ c = "TRADE"%string
    /\ Contract o = f_contract f /\ Contract c = f_contract f
    /\ Time o = f_open_time f /\ Time c = f_close_time f.
Proof.
  intro Hf. apply classified_trades_In in Hf as (k & it & Hit & ->).
  pose proof (group_loop_lots (batch_group df k) (batch_group df k) []
                (incl_refl _) (Forall_nil _) it Hit)
    as (o & Ho & Hopen & R & Hlot).
  apply group_loop_rows in Hit as [Hrow Hclose].
  apply batch_group_In in Ho as (Hoin & Hoc & Hot & _).
  apply batch_group_In in Hrow as (Hcin & Hcc & Hct & _).
  exists o, (it_row it). simpl. rewrite Hlot. simpl. tauto.
Qed.

Lemma fill_has_an_open_and_a_close_witness :
  exists f,
    In f (classified_trades two_halves_batch)
    /\ exists o c,
         In o two_halves_batch /\ In c two_halves_batch
         /\ Action o = "OPEN"%string /\ Action c = "CLOSE"%string
         /\ Type_ o = "TRADE"%string /\ Type_ c = "TRADE"%string
         /\ Contract o = f_contract f /\ Contract c = f_contract f
         /\ Time o = f_open_time f /\ Time c = f_close_time f.
Proof.
  destruct (classified_trades two_halves_batch) as [|f l] eqn:E;
    [vm_compute in E; discriminate|].
  exists f.
  assert (Hin : In f (classified_trades two_halves_batch))
    by (rewrite E; now left).
  rewrite <- E. split; [exact Hin|].
  exact (fill_has_an_open_and_a_close two_halves_batch f Hin).
Defined.

(** ** The spot engine, as it runs *)


Lemma spot_step_pushes (trades_df : DataFrame) st (row : Row) :
  In row (all_trades trades_df) ->
  (forall coin lot, In lot (inv_get (fst st) coin) ->
     pushed_by trades_df coin lot) ->
  forall coin lot,
    In lot (inv_get (fst (spot_step trades_df st row)) coin) ->
    pushed_by trades_df coin lot.
Proof.
  intros Hrow Hinv coin lot. unfold spot_step. destruct st as [inv its].
  rewrite (is_buy_all_trades _ _ Hrow).
  destruct (usdt_trade trades_df (Time row)) as [|usdt rest] eqn:Eu; simpl.
  - rewrite inv_get_ensure. apply Hinv.
  - rewrite inv_get_set.
    destruct (String.eqb_spec (Coin row) coin) as [Hc|_];
      [|rewrite inv_get_ensure; apply Hinv].
    rewrite inv_get_ensure. intro Hin.
    apply in_app_or in Hin as [Hin|[<-|[]]]; [rewrite <- Hc; now apply Hinv|].
    assert (Hu : In usdt (usdt_trade trades_df (Time row)))
      by (rewrite Eu; now left).
    apply filter_In in Hu as [Hu Hp]. apply andb_true_iff in Hp as [Ht Hcoin].
    apply Z.eqb_eq in Ht. apply String.eqb_eq in Hcoin.
    exists row, usdt. simpl. tauto.
Qed.

Lemma spot_fold_pushes (trades_df : DataFrame) (legs : list Row) :
  forall st,
    (forall row, In row legs -> In row (all_trades trades_df)) ->
    (forall coin lot, In lot (inv_get (fst st) coin) ->
       pushed_by trades_df coin lot) ->
    forall coin lot,
      In lot (inv_get (fst (fold_left (spot_step trades_df) legs st)) coin) ->
      pushed_by trades_df coin lot.
Proof.
  induction legs as [|row legs IH]; intros st Hlegs Hinv; simpl;
    [exact Hinv|].
  apply IH; [intros r Hr; apply Hlegs; now right|].
  apply spot_step_pushes; [apply Hlegs; now left|exact Hinv].
Qed.

(** X15: every lot that the spot engine holds when its loop ends was pushed
    by a leg of the batch, buy or sell, that has a USDT trade row at its
    time: it has the positive amount of the leg as quantity and a price
    that is not negative. *)
Theorem spot_inventory_holds_every_leg
    (df : DataFrame) (coin : string) (lot : SpotLot) :
  In lot (inv_get (fst (spot_run df)) coin) ->
  pushed_by (spot_trades_df df) coin lot
  /\ 0 < l_qty lot /\ 0 <= l_price lot.
Proof.
  intro Hin.
  assert (Hp : pushed_by (spot_trades_df df) coin lot).
  { unfold spot_run in Hin.
    eapply spot_fold_pushes; [intros row Hr; exact Hr| |exact Hin].
    intros c l []. }
  split; [exact Hp|].
  destruct Hp as (row & usdt & Hrow & _ & _ & _ & Hq & _ & _ & _ & Hprice).
  apply all_trades_positive in Hrow. rewrite Hq, Hprice.
  split; [exact Hrow|].
  apply Qle_shift_div_l; [exact Hrow|]. rewrite Qmult_0_l. apply Qabs_nonneg.
Qed.

Lemma spot_inventory_holds_every_leg_witness :
  exists lot,
    In lot (inv_get (fst (spot_run spot_round_trip)) "X")
    /\ pushed_by (spot_trades_df spot_round_trip) "X" lot
    /\ 0 < l_qty lot /\ 0 <= l_price lot.
Proof.
  destruct (inv_get (fst (spot_run spot_round_trip)) "X") as [|lot l] eqn:E;
    [vm_compute in E; discriminate|].
  exists lot.
  assert (Hin : In lot (inv_get (fst (spot_run spot_round_trip)) "X"))
    by (rewrite E; now left).
  rewrite <- E. split; [exact Hin|].
  exact (spot_inventory_holds_every_leg spot_round_trip "X"%string lot Hin).
Defined.

(** ** Loading the files *)

Lemma classify_files_app (l1 l2 : list CsvFile) :
  classify_files (l1 ++ l2) = classify_files l1 ++ classify_files l2.
Proof.
  induction l1 as [|f l1 IH]; simpl; [reflexivity|].
  destruct (classify_file f); simpl; now rewrite IH.
Qed.





(** X17: a file that cannot be read, or that has neither signature, is
    skipped: leaving it out of the upload changes nothing of what the
    loader returns. *)
Theorem unrecognised_file_is_skipped
    (before after : list CsvFile) (f : CsvFile) :
  classify_file f = None ->
  load_and_process_files (before ++ f :: after)
  = load_and_process_files (before ++ after).
Proof.
  intro Hf. unfold load_and_process_files.
  rewrite !classify_files_app. simpl. now rewrite Hf.
Qed.

Lemma unrecognised_file_is_skipped_witness :
  let f := mkCsvFile "notes.csv" (Some (mkTable ["Memo"%string] [])) in
  classify_file f = None
  /\ load_and_process_files ([spot_export] ++ f :: [])
     = load_and_process_files ([spot_export] ++ []).
Proof.
  intro f.
  assert (Hf : classify_file f = None) by reflexivity.
  split; [exact Hf|].
  exact (unrecognised_file_is_skipped [spot_export] [] f Hf).
Defined.

(** ** The request handler *)

Lemma tags_not_nil (x : FileType * DataFrame) (cl : list (FileType * DataFrame)) :
  nodup FileType_eq_dec (map fst (x :: cl)) <> [].
Proof.
  intro Hnil.
  assert (Hin : In (fst x) (nodup FileType_eq_dec (map fst (x :: cl))))
    by (apply nodup_In; now left).
  rewrite Hnil in Hin. destruct Hin.
Qed.

(** X18: two answers that the handler never gives: the "could not determine
    analysis type" error, and a successful spot analysis. *)
Theorem answers_never_given
    (files_part : option (list CsvFile)) (threshold_hours : Z) :
  analyze_uploaded_files files_part threshold_hours
  <> bad_request UnknownAnalysisType
  /\ forall r,
       analyze_uploaded_files files_part threshold_hours <> spot_analysis r.
Proof.
  unfold analyze_uploaded_files.
  destruct files_part as [[|f0 files]|]; try (split; [|intro r]; discriminate).
  destruct (String.eqb (filename f0) ""); [split; [|intro r]; discriminate|].
  destruct (filter is_csv (f0 :: files)) as [|f csv];
    [split; [|intro r]; discriminate|].
  unfold load_and_process_files.
  destruct (classify_files (f :: csv)) as [|x cl];
    [split; [|intro r]; discriminate|].
  destruct (reindex _) as [|row df]; [split; [|intro r]; discriminate|].
  destruct (1 <? _)%nat; [split; [|intro r]; discriminate|].
  pose proof (tags_not_nil x cl) as Hne.
  destruct (nodup FileType_eq_dec (map fst (x :: cl))) as [|[|] tags];
    [congruence| |].
  - rewrite analyze_spot_trades_error. split; [|intro r]; discriminate.
  - destruct (analyze_contract_trades (row :: df) threshold_hours);
      split; try intro r; discriminate.
Qed.

Lemma is_csv_named (f : CsvFile) :
  is_csv f = true -> String.eqb (filename f) "" = false.
Proof.
  unfold is_csv. destruct (filename f); [discriminate|reflexivity].
Qed.

Lemma filter_twice {A : Type} (keep : A -> bool) (l : list A) :
  filter keep (filter keep l) = filter keep l.
Proof.
  induction l as [|x l IH]; simpl; [reflexivity|].
  destruct (keep x) eqn:E; simpl; [rewrite E; now f_equal|exact IH].
Qed.

(** X19: files whose name does not end in ".csv" do not matter: when the
    first file of the upload is named and the upload holds a CSV file, the
    answer is the answer to the CSV files alone. *)
Theorem other_files_do_not_matter
    (f0 : CsvFile) (others : list CsvFile) (threshold_hours : Z) :
  filename f0 <> EmptyString ->
  filter is_csv (f0 :: others) <> [] ->
  analyze_uploaded_files (Some (f0 :: others)) threshold_hours
  = analyze_uploaded_files (Some (filter is_csv (f0 :: others)))
                           threshold_hours.
Proof.
  intros Hname Hcsv.
  pose proof (filter_twice is_csv (f0 :: others)) as Htwice.
  destruct (filter is_csv (f0 :: others)) as [|f csv] eqn:E; [congruence|].
  assert (Hf : is_csv f = true).
  { assert (Hin : In f (filter is_csv (f0 :: others)))
      by (rewrite E; now left).
    now apply filter_In in Hin. }
  unfold analyze_uploaded_files.
  apply String.eqb_neq in Hname. rewrite Hname, E, Htwice.
  now rewrite (is_csv_named f Hf).
Qed.

Lemma other_files_do_not_matter_witness :
  let readme := mkCsvFile "readme.txt" None in
  filename readme <> EmptyString
  /\ filter is_csv [readme; contract_export] <> []
  /\ analyze_uploaded_files (Some [readme; contract_export]) 24
     = analyze_uploaded_files (Some (filter is_csv [readme; contract_export]))
                              24.
Proof.
  intro readme.
  assert (Hname : filename readme <> EmptyString) by discriminate.
  assert (Hcsv : filter is_csv [readme; contract_export] <> [])
    by discriminate.
  split; [exact Hname|]. split; [exact Hcsv|].
  exact (other_files_do_not_matter readme [contract_export] 24 Hname Hcsv).
Defined.

Lemma lower_of_upper (a : Ascii.ascii) :
  lower_ascii (upper_ascii a) = lower_ascii a.
Proof.
  destruct a as [[] [] [] [] [] [] [] []]; reflexivity.
Qed.

Lemma lower_of_lower (a : Ascii.ascii) :
  lower_ascii (lower_ascii a) = lower_ascii a.
Proof.
  destruct a as [[] [] [] [] [] [] [] []]; reflexivity.
Qed.

Lemma lower_string_of_upper (s : string) :
  map_string lower_ascii (map_string upper_ascii s) = map_string lower_ascii s.
Proof.
  induction s as [|a s IH]; cbn [map_string]; [reflexivity|].
  now rewrite lower_of_upper, IH.
Qed.

Lemma lower_string_of_lower (s : string) :
  map_string lower_ascii (map_string lower_ascii s) = map_string lower_ascii s.
Proof.
  induction s as [|a s IH]; cbn [map_string]; [reflexivity|].
  now rewrite lower_of_lower, IH.
Qed.

(** X20: the ".csv" test does not look at the case of the letters: a file
    passes it exactly when the file with the upper-cased name, or with the
    lower-cased name, passes it. *)
Theorem csv_test_ignores_case (name : string) (content : option Table) :
  is_csv (mkCsvFile (map_string upper_ascii name) content)
  = is_csv (mkCsvFile name content)
  /\ is_csv (mkCsvFile (map_string lower_ascii name) content)
     = is_csv (mkCsvFile name content).
Proof.
  unfold is_csv. cbn [filename].
  rewrite lower_string_of_upper, lower_string_of_lower. split; reflexivity.
Qed.

(** ** The legacy adapter *)

Lemma renamed_column (c : string) (cols : list string) :
  c <> "Time"%string -> c <> "Time(UTC)"%string ->
  existsb (String.eqb c)
          (map (fun x => if String.eqb x "Time" then "Time(UTC)"%string else x)
               cols)
  = existsb (String.eqb c) cols.
Proof.
  intros H1 H2. induction cols as [|x cols IH]; cbn [map existsb];
    [reflexivity|].
  rewrite IH. f_equal. destruct (String.eqb_spec x "Time") as [->|_];
    [|reflexivity].
  apply String.eqb_neq in H1, H2. now rewrite H1, H2.
Qed.

Lemma no_time_column (cols : list string) :
  existsb (String.eqb "Time")
          (map (fun x => if String.eqb x "Time" then "Time(UTC)"%string else x)
               cols)
  = false.
Proof.
  induction cols as [|x cols IH]; cbn [map existsb]; [reflexivity|].
  rewrite IH, orb_false_r.
  destruct (String.eqb_spec x "Time") as [->|Hne]; [reflexivity|].
  apply String.eqb_neq. congruence.
Qed.

Lemma existsb_filter_false {A : Type} (f keep : A -> bool) (l : list A) :
  existsb f l = false -> existsb f (filter keep l) = false.
Proof.
  induction l as [|x l IH]; simpl; [reflexivity|]. intro H.
  apply orb_false_iff in H as [Hx Hl]. destruct (keep x); simpl;
    [rewrite Hx|]; now apply IH.
Qed.

(** X21: what [transform_legacy_to_uta] does to a table: afterwards every
    required column is there and no column is called "Time"; the rows are
    as many as before and differ from the old ones in [Type] and [Action]
    only; with a [Type] column no row is left with the type "FUNDING";
    with a [Direction] column every action is "OPEN", "CLOSE" or empty,
    "OPEN" exactly when the direction contains "Open". *)
Theorem legacy_table_is_made_canonical (t : Table) :
  (forall c, In c required_cols -> has_column c (transform_legacy_to_uta t) = true)
  /\ has_column "Time" (transform_legacy_to_uta t) = false
  /\ map (fun r => (index_label r, Time r, Coin r, Contract r, Direction r,
                    Amount r, Quantity r, Fee_Paid r, Cash_Flow r,
                    Funding r, Change r))
         (rows (transform_legacy_to_uta t))
     = map (fun r => (index_label r, Time r, Coin r, Contract r, Direction r,
                      Amount r, Quantity r, Fee_Paid r, Cash_Flow r,
                      Funding r, Change r))
           (rows t)
  /\ (has_column "Type" t = true ->
      forall r, In r (rows (transform_legacy_to_uta t)) ->
        Type_ r <> "FUNDING"%string)
  /\ (has_column "Direction" t = true ->
      forall r, In r (rows (transform_legacy_to_uta t)) ->
        (Action r = "OPEN" \/ Action r = "CLOSE" \/ Action r = "")%string
        /\ (Action r = "OPEN"%string <-> contains "Open" (Direction r) = true)).
Proof.
  unfold transform_legacy_to_uta, has_column.
  set (cols := map (fun c => if String.eqb c "Time" then "Time(UTC)"%string
                             else c) (columns t)).
  assert (Hdir : existsb (String.eqb "Direction") cols
                 = existsb (String.eqb "Direction") (columns t))
    by (apply renamed_column; discriminate).
  assert (Htype : existsb (String.eqb "Type") cols
                  = existsb (String.eqb "Type") (columns t))
    by (apply renamed_column; discriminate).
  set (cols' := if existsb (String.eqb "Direction") cols
                   && negb (existsb (String.eqb "Action") cols)
                then cols ++ ["Action"%string] else cols).
  cbn [columns rows].
  split; [|split; [|split; [|split]]].
  - intros c Hc. rewrite existsb_app.
    destruct (existsb (String.eqb c) cols') eqn:E; [reflexivity|].
    rewrite orb_false_l. apply existsb_exists. exists c. split; [|apply String.eqb_refl].
    apply filter_In. split; [exact Hc|].
    apply negb_true_iff. exact E.
  - rewrite existsb_app. apply orb_false_iff. split.
    + subst cols'. destruct (_ && _); [rewrite existsb_app|];
        unfold cols; rewrite no_time_column; reflexivity.
    + now apply existsb_filter_false.
  - rewrite map_map. apply map_ext. intro r. reflexivity.
  - intros Ht r Hr. apply in_map_iff in Hr as (r0 & <- & _). cbn [Type_].
    fold cols. rewrite Htype, Ht.
    destruct (String.eqb_spec (map_string upper_ascii (Type_ r0)) "FUNDING")
      as [_|Hne]; [discriminate|exact Hne].
  - intros Hd r Hr. apply in_map_iff in Hr as (r0 & <- & _).
    cbn [Action Direction]. fold cols. rewrite Hdir, Hd.
    destruct (contains "Open" (Direction r0)); [split; tauto|].
    destruct (contains "Close" (Direction r0)); split; try tauto;
      split; discriminate.
Qed.

(** ** Display of a holding period *)


(** A holding period of one day, one hour, one minute and one second. *)
Example format_timedelta_sample :
  format_timedelta (to_timedelta 90061) = "1d 01:01:01"%string.
Proof. reflexivity. Qed.

(** ** Rows that do not matter *)

Section SortAndFilter.
Context {A : Type} (key : A -> Z) (keep : A -> bool).



End SortAndFilter.





